(** * Survey back-office: the survey draft builder of [CreateSurveyPage.tsx]

    A shallow embedding of the page component's state, of its event
    handlers and of the submission pipeline, followed by the properties of
    the draft builder.

    Conventions.
    - A JavaScript string is a [string]; a string is truthy when it is not
      the empty string.
    - React state is the record [Page]; a handler is a function on [Page].
      A handler that calls [uniqueId] also threads the number of
      identifiers drawn so far.
    - [uniqueId()] reads [crypto.randomUUID()]: the successive values it
      returns are given by a function [uuid : nat -> string], the n-th call
      returning [uuid n].
    - [String.prototype.trim] and [new Date(s).toISOString()] belong to the
      platform and are parameters of the submission pipeline. *)

From Stdlib Require Import List String Ascii ZArith Bool Arith Lia.
From Stdlib Require Import DecimalString.
Import ListNotations.

Set Implicit Arguments.

(** ** JavaScript helpers *)

Module JS.

(** Truthiness of a string: the empty string is falsy, every other string is truthy. *)
Definition truthy (s : string) : bool :=
  match s with
  | EmptyString => false
  | String _ _ => true
  end.

(** [a || b] on strings. *)
Definition or_else (a b : string) : string := if truthy a then a else b.

(** [xs.join(sep)]. *)
Fixpoint join (sep : string) (xs : list string) : string :=
  match xs with
  | [] => EmptyString
  | [x] => x
  | x :: rest => append x (append sep (join sep rest))
  end.

(** Template-literal rendering of an integer. *)
Definition string_of_Z (z : Z) : string := NilZero.string_of_int (Z.to_int z).

(** [xs.map(f)] for a callback with side effects on a state [S]: the
    callback runs on the elements from left to right. *)
Fixpoint mapS {S A B : Type} (f : A -> S -> B * S) (xs : list A) (s : S)
  : list B * S :=
  match xs with
  | [] => ([], s)
  | x :: rest =>
      let '(y, s1) := f x s in
      let '(ys, s2) := mapS f rest s1 in
      (y :: ys, s2)
  end.

(** [xs.find(p)]. *)
Definition find {A : Type} (p : A -> bool) (xs : list A) : option A :=
  List.find p xs.

End JS.

(** ** The draft data model *)

Record DraftOption := mkOption {
  o_id : string;
  o_texto : string;
  o_ativo : bool
}.

Record DraftQuestion := mkQuestion {
  q_id : string;
  q_texto : string;
  q_ordem : Z;
  q_options : list DraftOption
}.

(** [Partial<DraftOption>] and [Partial<DraftQuestion>]: an absent key is
    [None]. *)
Record OptionUpdates := mkOptionUpdates {
  ou_id : option string;
  ou_texto : option string;
  ou_ativo : option bool
}.

Record QuestionUpdates := mkQuestionUpdates {
  qu_id : option string;
  qu_texto : option string;
  qu_ordem : option Z;
  qu_options : option (list DraftOption)
}.

Definition or_default {A : Type} (u : option A) (old : A) : A :=
  match u with
  | Some v => v
  | None => old
  end.

(** [{ ...option, ...updates }]. *)
Definition spreadOption (option : DraftOption) (updates : OptionUpdates)
  : DraftOption :=
  mkOption (or_default (ou_id updates) (o_id option))
           (or_default (ou_texto updates) (o_texto option))
           (or_default (ou_ativo updates) (o_ativo option)).

(** [{ ...question, ...updates }]. *)
Definition spreadQuestion (question : DraftQuestion) (updates : QuestionUpdates)
  : DraftQuestion :=
  mkQuestion (or_default (qu_id updates) (q_id question))
             (or_default (qu_texto updates) (q_texto question))
             (or_default (qu_ordem updates) (q_ordem question))
             (or_default (qu_options updates) (q_options question)).

(** [{ ...question, options }]. *)
Definition withOptions (question : DraftQuestion) (options : list DraftOption)
  : DraftQuestion :=
  mkQuestion (q_id question) (q_texto question) (q_ordem question) options.

Definition MAX_ACTIVE_OPTIONS : nat := 5.

Definition countActiveOptions (options : list DraftOption) : nat :=
  List.length (filter o_ativo options).

Definition TEMPLATE_TITLE : string :=
  "Satisfação dos Clientes – Rede de Supermercados".

Definition TEMPLATE_DESCRIPTION : string :=
  "Esta pesquisa tem como objetivo avaliar a satisfação dos clientes em diferentes áreas dos supermercados. Selecione o supermercado que melhor representa sua opinião para cada item.".

Definition TEMPLATE_OPTIONS : list string := [
  "Supermercado NovaVida";
  "Supermercado PreçoBom";
  "Supermercado Econômico+";
  "Supermercado FamíliaMax";
  "Supermercado UltraMarket"
]%string.

Definition TEMPLATE_QUESTIONS : list string := [
  "Qual supermercado você considera mais organizado e limpo nas áreas internas?";
  "Qual supermercado oferece a melhor limpeza e higienização dos banheiros?";
  "Qual supermercado tem o melhor estacionamento em termos de espaço, acesso e vagas disponíveis?";
  "Qual supermercado possui a garagem mais segura e bem organizada?";
  "Em qual supermercado o setor de hortifrúti oferece melhor qualidade e apresentação dos produtos?";
  "Qual supermercado oferece o melhor atendimento no setor de açougue?";
  "Qual supermercado possui a melhor organização nas gôndolas e prateleiras?";
  "Em qual supermercado você encontra filas mais rápidas e caixas mais eficientes?";
  "Em qual supermercado você percebe maior variedade de produtos?";
  "Qual supermercado você considera, no geral, o melhor para fazer compras?"
]%string.

(** ** The page state (the component's [useState] cells) *)

Record Page := mkPage {
  titulo : string;
  descricao : string;
  ativo : bool;
  dataValidade : string;
  questions : list DraftQuestion;
  error : option string;
  isSaving : bool;
  success : option string;
  selectedTemplate : string
}.

Definition setTitulo (v : string) (p : Page) : Page :=
  mkPage v (descricao p) (ativo p) (dataValidade p) (questions p) (error p)
         (isSaving p) (success p) (selectedTemplate p).

Definition setDescricao (v : string) (p : Page) : Page :=
  mkPage (titulo p) v (ativo p) (dataValidade p) (questions p) (error p)
         (isSaving p) (success p) (selectedTemplate p).

Definition setAtivo (v : bool) (p : Page) : Page :=
  mkPage (titulo p) (descricao p) v (dataValidade p) (questions p) (error p)
         (isSaving p) (success p) (selectedTemplate p).

Definition setDataValidade (v : string) (p : Page) : Page :=
  mkPage (titulo p) (descricao p) (ativo p) v (questions p) (error p)
         (isSaving p) (success p) (selectedTemplate p).

Definition setQuestions (v : list DraftQuestion) (p : Page) : Page :=
  mkPage (titulo p) (descricao p) (ativo p) (dataValidade p) v (error p)
         (isSaving p) (success p) (selectedTemplate p).

Definition setError (v : option string) (p : Page) : Page :=
  mkPage (titulo p) (descricao p) (ativo p) (dataValidade p) (questions p) v
         (isSaving p) (success p) (selectedTemplate p).

Definition setIsSaving (v : bool) (p : Page) : Page :=
  mkPage (titulo p) (descricao p) (ativo p) (dataValidade p) (questions p)
         (error p) v (success p) (selectedTemplate p).

Definition setSuccess (v : option string) (p : Page) : Page :=
  mkPage (titulo p) (descricao p) (ativo p) (dataValidade p) (questions p)
         (error p) (isSaving p) v (selectedTemplate p).

Definition setSelectedTemplate (v : string) (p : Page) : Page :=
  mkPage (titulo p) (descricao p) (ativo p) (dataValidade p) (questions p)
         (error p) (isSaving p) (success p) v.

(** ** Handlers that draw no identifier *)

Definition handleRemoveQuestion (id : string) (p : Page) : Page :=
  let prev := questions p in
  let filtered := filter (fun question => negb (String.eqb (q_id question) id)) prev in
  setQuestions (match filtered with [] => prev | _ :: _ => filtered end) p.

Definition updateQuestion (id : string) (updates : QuestionUpdates) (p : Page)
  : Page :=
  setQuestions
    (map (fun question =>
            if String.eqb (q_id question) id
            then spreadQuestion question updates
            else question)
         (questions p))
    p.

Definition handleRemoveOption (questionId optionId : string) (p : Page) : Page :=
  setQuestions
    (map (fun question =>
            if String.eqb (q_id question) questionId
            then withOptions question
                   (if 1 <? List.length (q_options question)
                    then filter (fun option => negb (String.eqb (o_id option) optionId))
                                (q_options question)
                    else q_options question)
            else question)
         (questions p))
    p.

Definition LIMIT_ON_TOGGLE : string :=
  "Máximo de 5 opções ativas por pergunta. Desative uma opção antes de ativar outra.".

(** The callback that [updateOption] maps over the questions; its state is
    the [error] cell, written by [setError]. *)
Definition updateOption_question (questionId optionId : string)
  (updates : OptionUpdates) (question : DraftQuestion) (err : option string)
  : DraftQuestion * option string :=
  if negb (String.eqb (q_id question) questionId) then (question, err)
  else
    match JS.find (fun option => String.eqb (o_id option) optionId)
                  (q_options question) with
    | None => (question, err)
    | Some targetOption =>
        let activeCount := countActiveOptions (q_options question) in
        let willActivate :=
          match ou_ativo updates with
          | Some true => negb (o_ativo targetOption)
          | _ => false
          end in
        if willActivate && (MAX_ACTIVE_OPTIONS <=? activeCount)
        then (question, Some LIMIT_ON_TOGGLE)
        else
          (withOptions question
             (map (fun option =>
                     if String.eqb (o_id option) optionId
                     then spreadOption option updates
                     else option)
                  (q_options question)),
           err)
    end.

Definition updateOption (questionId optionId : string) (updates : OptionUpdates)
  (p : Page) : Page :=
  let '(qs, err) :=
    JS.mapS (updateOption_question questionId optionId updates)
            (questions p) (error p) in
  setError err (setQuestions qs p).

(** ** Handlers that draw identifiers *)

Section Identifiers.

(** [uuid n] is the value of the n-th call of [uniqueId()]. *)
Variable uuid : nat -> string.

Definition Gen (A : Type) : Type := nat -> A * nat.

Definition uniqueId : Gen string := fun n => (uuid n, S n).

Definition createOptionDraft (ativo : bool) : Gen DraftOption :=
  fun n =>
    let '(i, n1) := uniqueId n in
    (mkOption i EmptyString ativo, n1).

Definition createQuestionDraft (ordem : Z) : Gen DraftQuestion :=
  fun n =>
    let '(i, n0) := uniqueId n in
    let '(a, n1) := createOptionDraft true n0 in
    let '(b, n2) := createOptionDraft true n1 in
    let '(c, n3) := createOptionDraft true n2 in
    let '(d, n4) := createOptionDraft true n3 in
    let '(e, n5) := createOptionDraft true n4 in
    (mkQuestion i EmptyString ordem [a; b; c; d; e], n5).

(** The page as the component first renders it. *)
Definition initialPage : Gen Page :=
  fun n =>
    let '(q, n1) := createQuestionDraft 1 n in
    (mkPage EmptyString EmptyString true EmptyString [q] None false None EmptyString, n1).

Definition handleAddQuestion (p : Page) : Gen Page :=
  fun n =>
    let prev := questions p in
    let '(q, n1) := createQuestionDraft (Z.of_nat (List.length prev) + 1) n in
    (setQuestions (prev ++ [q]) p, n1).

Definition LIMIT_ON_ADD : string :=
  "Máximo de 5 opções ativas por pergunta. A nova opção foi criada como inativa.".

(** The callback that [handleAddOption] maps over the questions; its state
    is the [error] cell and the number of identifiers drawn. *)
Definition handleAddOption_question (questionId : string)
  (question : DraftQuestion) (s : option string * nat)
  : DraftQuestion * (option string * nat) :=
  if negb (String.eqb (q_id question) questionId) then (question, s)
  else
    let activeCount := countActiveOptions (q_options question) in
    let reachedLimit := MAX_ACTIVE_OPTIONS <=? activeCount in
    let err := if reachedLimit then Some LIMIT_ON_ADD else fst s in
    let '(newOption, n1) := createOptionDraft (negb reachedLimit) (snd s) in
    (withOptions question (q_options question ++ [newOption]), (err, n1)).

Definition handleAddOption (questionId : string) (p : Page) : Gen Page :=
  fun n =>
    let '(qs, (err, n1)) :=
      JS.mapS (handleAddOption_question questionId) (questions p) (error p, n) in
    (setError err (setQuestions qs p), n1).

(** [TEMPLATE_OPTIONS.map(optionTexto => ({ id: uniqueId(), ... }))]. *)
Definition templateOption (optionTexto : string) : Gen DraftOption :=
  fun n =>
    let '(i, n1) := uniqueId n in
    (mkOption i optionTexto true, n1).

(** [TEMPLATE_QUESTIONS.map((texto, index) => ...)]: the callback receives
    the element with its index, and its state is the number of identifiers
    drawn. *)
Definition templateQuestion (entry : nat * string) : Gen DraftQuestion :=
  fun n =>
    let '(index, texto) := entry in
    let '(i, n1) := uniqueId n in
    let '(opts, n2) := JS.mapS templateOption TEMPLATE_OPTIONS n1 in
    (mkQuestion i texto (Z.of_nat index + 1) opts, n2).

Definition indexed {A : Type} (xs : list A) : list (nat * A) :=
  combine (seq 0 (List.length xs)) xs.

(** The [onChange] handler of the template [<select>]. *)
Definition selectTemplate (value : string) (p : Page) : Gen Page :=
  fun n =>
    let p1 := setSelectedTemplate value p in
    if String.eqb value "supermarkets" then
      let '(builtQuestions, n1) :=
        JS.mapS templateQuestion (indexed TEMPLATE_QUESTIONS) n in
      (setSuccess None
         (setError None
            (setQuestions builtQuestions
               (setAtivo true
                  (setDescricao TEMPLATE_DESCRIPTION
                     (setTitulo TEMPLATE_TITLE p1))))),
       n1)
    else (p1, n).

(** The [onClick] handler of the "Limpar" button. *)
Definition handleClear (p : Page) : Gen Page :=
  fun n =>
    let '(q, n1) := createQuestionDraft 1 n in
    (setSuccess None
       (setError None
          (setSelectedTemplate EmptyString
             (setQuestions [q]
                (setDataValidade EmptyString
                   (setAtivo true
                      (setDescricao EmptyString (setTitulo EmptyString p))))))),
     n1).

End Identifiers.

(** ** The page as a state machine over its user-interface events

    Each constructor is one call site of a handler in the rendered markup. *)

Inductive Event :=
| ChangeTitulo (value : string)
| ChangeDescricao (value : string)
| ChangeDataValidade (value : string)
| ChangeAtivo (checked : bool)
| SelectTemplate (value : string)
| ClickLimpar
| ClickAddQuestion
| ClickRemoveQuestion (questionId : string)
| ChangeQuestionTexto (questionId : string) (value : string)
| ChangeQuestionOrdem (questionId : string) (questionIndex : nat) (value : option Z)
| ClickAddOption (questionId : string)
| ClickRemoveOption (questionId optionId : string)
| ChangeOptionTexto (questionId optionId : string) (value : string)
| ChangeOptionAtivo (questionId optionId : string) (checked : bool).

(** [{ texto: value }], [{ ordem: value }] and [{ ativo: checked }]. *)
Definition textoOfQuestion (value : string) : QuestionUpdates :=
  mkQuestionUpdates None (Some value) None None.

Definition ordemOfQuestion (value : Z) : QuestionUpdates :=
  mkQuestionUpdates None None (Some value) None.

Definition textoOfOption (value : string) : OptionUpdates :=
  mkOptionUpdates None (Some value) None.

Definition ativoOfOption (checked : bool) : OptionUpdates :=
  mkOptionUpdates None None (Some checked).

(** [Number(event.target.value) || questionIndex + 1]: [value] is [None]
    when the conversion gives [NaN]; zero and [NaN] are falsy. *)
Definition ordemInput (value : option Z) (questionIndex : nat) : Z :=
  match value with
  | Some z => if Z.eqb z 0 then Z.of_nat questionIndex + 1 else z
  | None => Z.of_nat questionIndex + 1
  end.

Section Machine.

Variable uuid : nat -> string.

Definition step (ev : Event) (s : Page * nat) : Page * nat :=
  let '(p, n) := s in
  match ev with
  | ChangeTitulo v => (setTitulo v p, n)
  | ChangeDescricao v => (setDescricao v p, n)
  | ChangeDataValidade v => (setDataValidade v p, n)
  | ChangeAtivo b => (setAtivo b p, n)
  | SelectTemplate v => selectTemplate uuid v p n
  | ClickLimpar => handleClear uuid p n
  | ClickAddQuestion => handleAddQuestion uuid p n
  | ClickRemoveQuestion q => (handleRemoveQuestion q p, n)
  | ChangeQuestionTexto q v => (updateQuestion q (textoOfQuestion v) p, n)
  | ChangeQuestionOrdem q i v =>
      (updateQuestion q (ordemOfQuestion (ordemInput v i)) p, n)
  | ClickAddOption q => handleAddOption uuid q p n
  | ClickRemoveOption q o => (handleRemoveOption q o p, n)
  | ChangeOptionTexto q o v => (updateOption q o (textoOfOption v) p, n)
  | ChangeOptionAtivo q o b => (updateOption q o (ativoOfOption b) p, n)
  end.

(** The events are handled one after the other. *)
Definition run (evs : list Event) (s : Page * nat) : Page * nat :=
  fold_left (fun acc ev => step ev acc) evs s.

(** The state reached from the first render of the page. *)
Definition reach (evs : list Event) : Page * nat :=
  run evs (initialPage uuid 0).

End Machine.

(** [distinct xs]: no string occurs twice in [xs]. *)
Fixpoint distinct (xs : list string) : bool :=
  match xs with
  | [] => true
  | x :: rest => negb (existsb (String.eqb x) rest) && distinct rest
  end.

(** The first [n] identifiers returned by [uniqueId] are pairwise
    different. *)
Definition uniqueIds (uuid : nat -> string) (n : nat) : bool :=
  distinct (map uuid (seq 0 n)).

(** An identifier source for the examples: ["id-0"], ["id-1"], ... *)
Definition counterIds (n : nat) : string :=
  append "id-" (NilEmpty.string_of_uint (Nat.to_uint n)).

(** ** The API client ([services/api]) as seen from the page *)

Record CreateSurveyPayload := mkSurveyPayload {
  sp_titulo : string;
  sp_descricao : option string;
  sp_ativo : bool;
  sp_dataValidade : option string
}.

Record CreateQuestionPayload := mkQuestionPayload {
  qp_texto : string;
  qp_ordem : Z;
  qp_surveyId : Z
}.

Record CreateOptionPayload := mkOptionPayload {
  op_texto : string;
  op_ativo : bool;
  op_questionId : Z
}.

(** The create endpoints and the delete endpoints of [surveyApi],
    [questionApi] and [optionApi]. *)
Inductive Call :=
| SurveyCreate (payload : CreateSurveyPayload)
| QuestionCreate (payload : CreateQuestionPayload)
| OptionCreate (payload : CreateOptionPayload)
| SurveyRemove (id : Z)
| QuestionRemove (id : Z)
| OptionRemove (id : Z).

Definition isCreate (c : Call) : bool :=
  match c with
  | SurveyCreate _ | QuestionCreate _ | OptionCreate _ => true
  | _ => false
  end.

(** The body of an error response: [message] and the optional [errors]
    record, kept as its list of entries. *)
Record ApiError := mkApiError {
  ae_message : string;
  ae_errors : option (list (string * string))
}.

Record AxiosResponse := mkResponse {
  r_status : Z;
  r_data : option ApiError
}.

(** What a rejected promise or a [throw] carries, as [parseApiError] tells
    the cases apart. *)
Inductive Thrown :=
| AxiosError (response : option AxiosResponse) (code : option string)
| JsError (message : string)
| OtherValue.

(** [data?.message]. *)
Definition messageOf (data : option ApiError) : string :=
  match data with
  | Some d => ae_message d
  | None => EmptyString
  end.

(** [status === code], where [status] is [undefined] without a response. *)
Definition statusIs (status : option Z) (code : Z) : bool :=
  match status with
  | Some s => Z.eqb s code
  | None => false
  end.

Definition parseApiError (error : Thrown) : string :=
  match error with
  | AxiosError response code =>
      let data := match response with Some r => r_data r | None => None end in
      let status := match response with Some r => Some (r_status r) | None => None end in
      if statusIs status 401 then
        JS.or_else (messageOf data) "Credenciais inválidas."
      else if statusIs status 403 then
        JS.or_else (messageOf data) "Você não tem permissão para executar esta ação."
      else if JS.truthy (messageOf data) then
        match data with
        | Some (mkApiError message (Some errors)) =>
            append message (append ": " (JS.join ", " (map snd errors)))
        | _ => messageOf data
        end
      else
        match response with
        | None =>
            match code with
            | Some "ECONNABORTED"%string =>
                "A requisição demorou para responder. Tente novamente em instantes."
            | _ =>
                "Não foi possível conectar ao servidor. Verifique sua conexão e tente novamente."
            end
        | Some _ => "Erro ao processar sua solicitação. Tente novamente mais tarde."
        end
  | JsError message => JS.or_else message "Erro inesperado. Tente novamente."
  | OtherValue => "Erro inesperado. Tente novamente."
  end%string.

(** The answer of the backend to a call: the promise resolves with the
    created entity, of which the page reads the [id], or rejects. *)
Inductive Reply :=
| Resolved (id : Z)
| Rejected (e : Thrown).

Definition isResolved (r : Reply) : bool :=
  match r with
  | Resolved _ => true
  | Rejected _ => false
  end.

(** How a block of code completes. *)
Inductive Completion (A : Type) :=
| Normal (a : A)
| Abrupt (e : Thrown).

Arguments Normal {A} a.
Arguments Abrupt {A} e.

(** ** The submission pipeline *)

Section Submission.

(** [s.trim()]. *)
Variable trim : string -> string.

(** [new Date(s).toISOString()], which throws on an invalid date. *)
Variable toISOString : string -> Completion string.

(** The backend: a state and its answer to each call. *)
Variable Backend : Type.
Variable server : Call -> Backend -> Reply * Backend.

(** Everything outside the component: the backend, the calls issued so far
    with their answers, and the router's [navigate] calls. *)
Record World := mkWorld {
  backend : Backend;
  trace : list (Call * Reply);
  navigations : list string
}.

Definition Api (A : Type) : Type := World -> Completion A * World.

Definition ret {A : Type} (a : A) : Api A := fun w => (Normal a, w).

Definition throw {A : Type} (e : Thrown) : Api A := fun w => (Abrupt e, w).

Definition bind {A B : Type} (m : Api A) (k : A -> Api B) : Api B :=
  fun w =>
    match m w with
    | (Normal a, w1) => k a w1
    | (Abrupt e, w1) => (Abrupt e, w1)
    end.

Notation "x <- m ;; k" := (bind m (fun x => k))
  (at level 61, m at next level, right associativity).

(** [await api.create(payload)]: the call is recorded with its answer. *)
Definition await (c : Call) : Api Z :=
  fun w =>
    let '(r, b) := server c (backend w) in
    let w1 := mkWorld b (trace w ++ [(c, r)]) (navigations w) in
    match r with
    | Resolved id => (Normal id, w1)
    | Rejected e => (Abrupt e, w1)
    end.

(** [for (const x of xs) body]. *)
Fixpoint forOf {A : Type} (body : A -> Api unit) (xs : list A) : Api unit :=
  match xs with
  | [] => ret tt
  | x :: rest => _ <- body x ;; forOf body rest
  end.

(** [descricao.trim() || null]. *)
Definition descricaoField (descricao : string) : option string :=
  if JS.truthy (trim descricao) then Some (trim descricao) else None.

(** [dataValidade ? new Date(dataValidade).toISOString() : null]. *)
Definition dataValidadeField (dataValidade : string) : Api (option string) :=
  if JS.truthy dataValidade then
    match toISOString dataValidade with
    | Normal iso => ret (Some iso)
    | Abrupt e => throw e
    end
  else ret None.

Definition submitOption (questionId : Z) (option : DraftOption) : Api unit :=
  if negb (JS.truthy (trim (o_texto option))) then ret tt
  else
    _ <- await (OptionCreate
                  (mkOptionPayload (trim (o_texto option)) (o_ativo option) questionId)) ;;
    ret tt.

Definition submitQuestion (surveyId : Z) (question : DraftQuestion) : Api unit :=
  createdQuestion <- await (QuestionCreate
                              (mkQuestionPayload (trim (q_texto question))
                                                 (q_ordem question) surveyId)) ;;
  forOf (submitOption createdQuestion) (q_options question).

(** The [try] block of [handleSubmit], up to the last create call; its
    value is [createdSurvey.id]. *)
Definition submitDraft (p : Page) : Api Z :=
  expiry <- dataValidadeField (dataValidade p) ;;
  createdSurvey <- await (SurveyCreate
                            (mkSurveyPayload (trim (titulo p))
                                             (descricaoField (descricao p))
                                             (ativo p) expiry)) ;;
  _ <- forOf (submitQuestion createdSurvey) (questions p) ;;
  ret createdSurvey.

Definition navigate (path : string) (w : World) : World :=
  mkWorld (backend w) (trace w) (navigations w ++ [path]).

Definition TITLE_REQUIRED : string := "Informe um título para a pesquisa.".
Definition TEXT_REQUIRED : string := "Todas as perguntas precisam de um texto.".
Definition TOO_MANY_ACTIVE : string :=
  "Cada pergunta pode ter no máximo 5 opções ativas.".
Definition CREATED : string := "Pesquisa criada com sucesso.".

Definition handleSubmit (p : Page) (w : World) : Page * World :=
  let p0 := setSuccess None (setError None p) in
  if negb (JS.truthy (trim (titulo p))) then
    (setError (Some TITLE_REQUIRED) p0, w)
  else if negb (forallb (fun question => JS.truthy (trim (q_texto question)))
                        (questions p)) then
    (setError (Some TEXT_REQUIRED) p0, w)
  else if existsb (fun question =>
                     MAX_ACTIVE_OPTIONS <? countActiveOptions (q_options question))
                  (questions p) then
    (setError (Some TOO_MANY_ACTIVE) p0, w)
  else
    let p1 := setIsSaving true p0 in
    match submitDraft p w with
    | (Normal id, w1) =>
        (setIsSaving false (setSuccess (Some CREATED) p1),
         navigate (append "/surveys/" (JS.string_of_Z id)) w1)
    | (Abrupt err, w1) =>
        (setIsSaving false (setError (Some (parseApiError err)) p1), w1)
    end.

(** The calls issued between two worlds, with their answers. *)
Definition issued (before after : World) : list (Call * Reply) :=
  skipn (List.length (trace before)) (trace after).

(** *** The call sequence of a submission in which every call is answered

    [sid] is the identifier the backend returned for the survey; an answer
    [(qid, oids)] holds the identifier returned for a question and those
    returned for its options that were sent. *)

Definition sendable (question : DraftQuestion) : list DraftOption :=
  filter (fun option => JS.truthy (trim (o_texto option))) (q_options question).

Definition surveyPayload (p : Page) (expiry : option string) : CreateSurveyPayload :=
  mkSurveyPayload (trim (titulo p)) (descricaoField (descricao p)) (ativo p) expiry.

Definition optionCall (qid : Z) (option : DraftOption) : Call :=
  OptionCreate (mkOptionPayload (trim (o_texto option)) (o_ativo option) qid).

Definition questionCall (sid : Z) (question : DraftQuestion) : Call :=
  QuestionCreate (mkQuestionPayload (trim (q_texto question)) (q_ordem question) sid).

Definition questionExchange (sid : Z) (qa : DraftQuestion * (Z * list Z))
  : list (Call * Reply) :=
  let '(question, (qid, oids)) := qa in
  (questionCall sid question, Resolved qid)
  :: map (fun oa => (optionCall qid (fst oa), Resolved (snd oa)))
         (combine (sendable question) oids).

Definition exchange (p : Page) (expiry : option string) (sid : Z)
  (answers : list (Z * list Z)) : list (Call * Reply) :=
  (SurveyCreate (surveyPayload p expiry), Resolved sid)
  :: flat_map (questionExchange sid) (combine (questions p) answers).

(** The expiry sent with the survey, when the conversion does not throw. *)
Definition expiryOf (p : Page) : option (option string) :=
  if JS.truthy (dataValidade p) then
    match toISOString (dataValidade p) with
    | Normal iso => Some (Some iso)
    | Abrupt _ => None
    end
  else Some None.

End Submission.

Arguments mkWorld {Backend} _ _ _.
Arguments backend {Backend} _.
Arguments trace {Backend} _.
Arguments navigations {Backend} _.

(** A platform and a backend for the examples: [trim] strips spaces at both
    ends, every date converts to itself, and the backend numbers the
    entities from its counter, rejecting the call made when the counter is
    [failAt]. *)
Fixpoint trimStart (s : string) : string :=
  match s with
  | String " " rest => trimStart rest
  | _ => s
  end.

Fixpoint rev_string (s : string) (acc : string) : string :=
  match s with
  | EmptyString => acc
  | String c rest => rev_string rest (String c acc)
  end.

Definition spaceTrim (s : string) : string :=
  rev_string (trimStart (rev_string (trimStart s) EmptyString)) EmptyString.

Definition plainDate (s : string) : Completion string := Normal s.

Definition countingServer (failAt : Z) (c : Call) (b : Z) : Reply * Z :=
  if Z.eqb b failAt
  then (Rejected (JsError "Network Error"), (b + 1)%Z)
  else (Resolved b, (b + 1)%Z).

(** ** Describing a run of the pipeline *)

(** Every call of [evs] was answered. *)
Definition allResolved (evs : list (Call * Reply)) : Prop :=
  Forall (fun ev => isResolved (snd ev) = true) evs.

(** Every call of [evs] is a create call. *)
Definition onlyCreates (evs : list (Call * Reply)) : Prop :=
  Forall (fun ev => isCreate (fst ev) = true) evs.

(** [evs] ends with a call rejected with [e], the calls before it having
    been answered. *)
Definition stoppedBy (evs : list (Call * Reply)) (e : Thrown) : Prop :=
  exists pre c, evs = pre ++ [(c, Rejected e)] /\ allResolved pre.

(** [Run m w Q]: from the world [w] the computation [m] only appends to the
    trace, the calls [evs] say, leaves the navigations alone, and its
    completion and [evs] satisfy [Q]. *)
Definition Run {Backend A : Type} (m : Api Backend A) (w : World Backend)
  (Q : Completion A -> list (Call * Reply) -> Prop) : Prop :=
  exists evs,
    trace (snd (m w)) = trace w ++ evs
    /\ navigations (snd (m w)) = navigations w
    /\ Q (fst (m w)) evs.

(** What the loop over the options of a question does. *)
Definition optionsPost (trim : string -> string) (qid : Z) (opts : list DraftOption)
  (r : Completion unit) (evs : list (Call * Reply)) : Prop :=
  onlyCreates evs
  /\ match r with
     | Normal _ =>
         exists oids,
           List.length oids
           = List.length (filter (fun o => JS.truthy (trim (o_texto o))) opts)
           /\ evs = map (fun oa => (optionCall trim qid (fst oa), Resolved (snd oa)))
                        (combine (filter (fun o => JS.truthy (trim (o_texto o))) opts) oids)
     | Abrupt e => stoppedBy evs e
     end.

(** What the loop over the questions does. *)
Definition questionsPost (trim : string -> string) (sid : Z) (qs : list DraftQuestion)
  (r : Completion unit) (evs : list (Call * Reply)) : Prop :=
  onlyCreates evs
  /\ match r with
     | Normal _ =>
         exists answers,
           map (fun a => List.length (snd a)) answers
           = map (fun q => List.length (sendable trim q)) qs
           /\ evs = flat_map (questionExchange trim sid) (combine qs answers)
     | Abrupt e => stoppedBy evs e
     end.

(** What the [try] block does. *)
Definition submitPost (trim : string -> string)
  (toISOString : string -> Completion string) (p : Page)
  (r : Completion Z) (evs : list (Call * Reply)) : Prop :=
  onlyCreates evs
  /\ match r with
     | Normal sid =>
         exists expiry answers,
           expiryOf toISOString p = Some expiry
           /\ map (fun a => List.length (snd a)) answers
              = map (fun q => List.length (sendable trim q)) (questions p)
           /\ evs = exchange trim p expiry sid answers
     | Abrupt e => (evs = [] /\ expiryOf toISOString p = None) \/ stoppedBy evs e
     end.

(** A draft passes the pre-submit validation: the title and every question
    text are non-empty after trimming, and no question has more than five
    active options. *)
Definition passesValidation (trim : string -> string) (p : Page) : Prop :=
  trim (titulo p) <> EmptyString
  /\ Forall (fun q => trim (q_texto q) <> EmptyString) (questions p)
  /\ Forall (fun q => countActiveOptions (q_options q) <= 5) (questions p).

(** ** Sample inputs *)

(** An edited page: a title, a description, an expiry, two questions. *)
Definition editedPage : Page :=
  mkPage "Clientes" "Pesquisa anual" false "2030-01-01T10:00"
         [mkQuestion "qa" "Onde compra?" 1
                     [mkOption "a1" "Loja" true; mkOption "a2" "Site" false];
          mkQuestion "qb" "Quando?" 2 [mkOption "b1" "Hoje" true]]
         (Some "aviso"%string) false None "supermarkets".

(** A click sequence on the fresh page: a sixth option is added to the
    first question, an option is switched off and two are switched on, an
    option and a question are removed, a question is added. *)
Definition sampleSession : list Event :=
  [ClickAddOption "id-0";
   ChangeOptionAtivo "id-0" "id-1" false;
   ChangeOptionAtivo "id-0" "id-6" true;
   ChangeOptionAtivo "id-0" "id-1" true;
   ClickRemoveOption "id-0" "id-2";
   ClickAddQuestion;
   ChangeQuestionTexto "id-7" "Segunda";
   ClickRemoveQuestion "id-0";
   ClickRemoveQuestion "id-7"]%string.

(** A page whose only question is at the cap: five active options and a
    sixth, inactive one. *)
Definition cappedQuestion : DraftQuestion :=
  mkQuestion "q1" "Qual loja?" 1
             [mkOption "o1" "A" true; mkOption "o2" "B" true; mkOption "o3" "C" true;
              mkOption "o4" "D" true; mkOption "o5" "E" true; mkOption "o6" "F" false].

Definition cappedPage : Page :=
  mkPage "Lojas" EmptyString true EmptyString [cappedQuestion] None false None EmptyString.

(** A valid draft with two questions of three options each, every text
    non-empty, and one with a blank option and an empty question text. *)
Definition twoByThree : Page :=
  mkPage " Mercados " EmptyString true EmptyString
         [mkQuestion "qa" "Limpeza?" 1
                     [mkOption "a1" "Nova" true; mkOption "a2" " Bom " true;
                      mkOption "a3" "Max" false];
          mkQuestion "qb" "Filas?" 2
                     [mkOption "b1" "Nova" true; mkOption "b2" "Bom" true;
                      mkOption "b3" "Max" true]]
         None false None EmptyString.

Definition untitledPage : Page := setTitulo "   " twoByThree.

Definition blankQuestionPage : Page :=
  setQuestions [mkQuestion "qa" "  " 1 [mkOption "a1" "Nova" true]] twoByThree.

Definition overCapPage : Page :=
  setQuestions
    [mkQuestion "qa" "Limpeza?" 1
                [mkOption "a1" "A" true; mkOption "a2" "B" true; mkOption "a3" "C" true;
                 mkOption "a4" "D" true; mkOption "a5" "E" true; mkOption "a6" "F" true]]
    twoByThree.

(** A world whose backend is the counting server at 100. *)
Definition freshWorld : World Z := mkWorld 100%Z [] [].

(** ** Well-formed drafts *)

(** [uuid] is injective on the first [n] draws. *)
Definition injBelow (uuid : nat -> string) (n : nat) : Prop :=
  forall i j, i < n -> j < n -> uuid i = uuid j -> i = j.

(** A question is well formed after [n] draws: at most five active options,
    at least one option, option identifiers that differ and were all drawn
    among the first [n]. *)
Definition wfQuestion (uuid : nat -> string) (n : nat) (q : DraftQuestion) : Prop :=
  countActiveOptions (q_options q) <= MAX_ACTIVE_OPTIONS
  /\ q_options q <> []
  /\ NoDup (map o_id (q_options q))
  /\ Forall (fun o => exists k, k < n /\ o_id o = uuid k) (q_options q).

Definition wfState (uuid : nat -> string) (s : Page * nat) : Prop :=
  questions (fst s) <> [] /\ Forall (wfQuestion uuid (snd s)) (questions (fst s)).

(** ** Counting the calls of a run *)

Definition isSurveyCreate (c : Call) : bool :=
  match c with SurveyCreate _ => true | _ => false end.

Definition isQuestionCreate (c : Call) : bool :=
  match c with QuestionCreate _ => true | _ => false end.

Definition isOptionCreate (c : Call) : bool :=
  match c with OptionCreate _ => true | _ => false end.

Definition countCalls (kind : Call -> bool) (evs : list (Call * Reply)) : nat :=
  List.length (filter kind (map fst evs)).

(** The options of the whole draft, question after question. *)
Definition allOptions (p : Page) : list DraftOption :=
  flat_map q_options (questions p).

(** ** Further sample inputs *)

(** A date conversion that always throws. *)
Definition rejectingDate (s : string) : Completion string :=
  Abrupt (JsError "Invalid time value").

Definition datedPage : Page := setDataValidade "2030-13-45T00:00" twoByThree.

(** A valid draft whose second option is blank. *)
Definition blankOptionPage : Page :=
  setQuestions
    [mkQuestion "qa" "Limpeza?" 1 [mkOption "a1" "Nova" true; mkOption "a2" "  " true]]
    twoByThree.

(** ** Session handling of the API client ([services/api])

    The module state: the default [Authorization] header of [apiClient],
    the [survey_token] entry of [localStorage], the flag
    [hasRedirectedForAuth] and the calls of [window.location.assign]. The
    code runs in a browser, where [window] is defined. *)

Record Session := mkSession {
  authorization : option string;
  storedToken : option string;
  hasRedirectedForAuth : bool;
  assigned : list string
}.

Definition loginRedirectPath : string := "/login".

Definition redirectToLogin (s : Session) : Session :=
  if hasRedirectedForAuth s then s
  else mkSession (authorization s) (storedToken s) true
                 (assigned s ++ [loginRedirectPath]).

(** [token] is [None] for [null]; the empty string is falsy as well. *)
Definition setAuthToken (token : option string) (s : Session) : Session :=
  match token with
  | Some t =>
      if JS.truthy t
      then mkSession (Some (append "Bearer " t)) (Some t)
                     (hasRedirectedForAuth s) (assigned s)
      else mkSession None None false (assigned s)
  | None => mkSession None None false (assigned s)
  end.

(** The module as it is loaded, [stored] being the [survey_token] entry
    found in [localStorage]. *)
Definition loadSession (stored : option string) : Session :=
  mkSession
    (match stored with
     | Some t => if JS.truthy t then Some (append "Bearer " t) else None
     | None => None
     end)
    stored false [].

Definition SESSION_EXPIRED : string := "Sessão expirada. Faça login novamente.".

(** [error?.response?.status]: only an Axios error carries a response. *)
Definition statusOf (error : Thrown) : option Z :=
  match error with
  | AxiosError (Some r) _ => Some (r_status r)
  | _ => None
  end.

(** The rejection handler of the response interceptor: what the caller's
    promise is rejected with, and the session afterwards. *)
Definition onResponseError (error : Thrown) (s : Session) : Thrown * Session :=
  if statusIs (statusOf error) 401 || statusIs (statusOf error) 403
  then (JsError SESSION_EXPIRED, redirectToLogin (setAuthToken None s))
  else (error, s).

(** The [exp] claim of a decoded token payload: absent, or an integer
    number of seconds. *)
Record JwtPayload := mkPayload {
  exp : option Z
}.

Section Expiry.

(** [decodeJwtPayload], which splits the token, decodes its second part
    with [atob] and parses it; [None] stands for [null]. *)
Variable decodeJwtPayload : string -> option JwtPayload.

(** [now] is [Date.now()], in milliseconds. *)
Definition isTokenExpired (now : Z) (token : option string) : bool :=
  match token with
  | None => true
  | Some t =>
      if negb (JS.truthy t) then true
      else
        match decodeJwtPayload t with
        | None => false
        | Some payload =>
            match exp payload with
            | None => false
            | Some seconds =>
                if Z.eqb seconds 0 then false
                else Z.leb (seconds * 1000) now
            end
        end
  end.

(** [authApi.ensureValidSession()]. *)
Definition ensureValidSession (now : Z) (s : Session) : option string * Session :=
  let token := storedToken s in
  if isTokenExpired now token
  then (None, redirectToLogin (setAuthToken None s))
  else (token, s).

End Expiry.

(** *** The token of a login response *)

(** The response of [POST /auth/login] as [authApi.login] reads it: the two
    spellings of the authorization header and the four fields of the body
    that may hold the token; [None] is [undefined] or [null]. *)
Record LoginResponse := mkLoginResponse {
  h_authorization : option string;
  h_Authorization : option string;
  d_accessToken : option string;
  d_token : option string;
  d_Authorization : option string;
  d_authorization : option string
}.

(** [a || b] and [a ?? b] on values that are a string or undefined. *)
Definition orElse (a b : option string) : option string :=
  match a with
  | Some t => if JS.truthy t then a else b
  | None => b
  end.

Definition coalesce (a b : option string) : option string :=
  match a with
  | Some _ => a
  | None => b
  end.

(** Lower case of an ASCII letter; the other characters are kept. Only the
    first seven characters of a header are compared, with ["bearer "]. *)
Definition lowerAscii (c : ascii) : ascii :=
  let n := nat_of_ascii c in
  if (65 <=? n) && (n <=? 90) then ascii_of_nat (n + 32) else c.

Fixpoint toLowerCase (s : string) : string :=
  match s with
  | EmptyString => EmptyString
  | String c rest => String (lowerAscii c) (toLowerCase rest)
  end.

Fixpoint startsWith (prefix s : string) : bool :=
  match prefix, s with
  | EmptyString, _ => true
  | String a prefix', String b s' => Ascii.eqb a b && startsWith prefix' s'
  | String _ _, EmptyString => false
  end.

(** [s.slice(n)] for [n] within the string or at its end. *)
Fixpoint slice (n : nat) (s : string) : string :=
  match n, s with
  | O, _ => s
  | S n', String _ rest => slice n' rest
  | S _, EmptyString => EmptyString
  end.

Definition extractHeaderToken (headerToken : option string) : option string :=
  match headerToken with
  | Some h =>
      if JS.truthy h && startsWith "bearer " (toLowerCase h)
      then Some (slice 7 h)
      else headerToken
  | None => None
  end.

(** The token [authApi.login] ends with, or [None] when it throws for want
    of one. *)
Definition loginToken (r : LoginResponse) : option string :=
  let headerToken := orElse (h_authorization r) (h_Authorization r) in
  let extractedHeaderToken := extractHeaderToken headerToken in
  let dataToken :=
    coalesce (d_accessToken r)
      (coalesce (d_token r) (coalesce (d_Authorization r) (d_authorization r))) in
  let token := orElse dataToken extractedHeaderToken in
  match token with
  | Some t => if JS.truthy t then Some t else None
  | None => None
  end.

Definition TOKEN_MISSING : string :=
  "Token não retornado pela API. Verifique o endpoint de login.".

(** [authApi.login(payload)], given how the request ended: rejected with an
    error, which the response interceptor handles, or answered. *)
Definition login (outcome : Thrown + LoginResponse) (s : Session)
  : Completion string * Session :=
  match outcome with
  | inl error =>
      let '(e, s1) := onResponseError error s in (Abrupt e, s1)
  | inr r =>
      match loginToken r with
      | Some token => (Normal token, setAuthToken (Some token) s)
      | None => (Abrupt (JsError TOKEN_MISSING), s)
      end
  end.

(** [authApi.logout()]: the request is made only with a stored token;
    [failure] is the error it was rejected with, if it was. *)
Definition logout (failure : option Thrown) (s : Session)
  : Completion unit * Session :=
  match storedToken s with
  | Some t =>
      if JS.truthy t then
        match failure with
        | Some error =>
            let '(e, s1) := onResponseError error s in
            (Abrupt e, setAuthToken None s1)
        | None => (Normal tt, setAuthToken None s)
        end
      else (Normal tt, setAuthToken None s)
  | None => (Normal tt, setAuthToken None s)
  end.

(** What happens to the session, one operation after the other. *)
Inductive SessionEvent :=
| SetAuthToken (token : option string)
| ResponseError (error : Thrown)
| EnsureValidSession (now : Z)
| Login (outcome : Thrown + LoginResponse)
| Logout (failure : option Thrown).

Definition sessionStep (decodeJwtPayload : string -> option JwtPayload)
  (ev : SessionEvent) (s : Session) : Session :=
  match ev with
  | SetAuthToken token => setAuthToken token s
  | ResponseError error => snd (onResponseError error s)
  | EnsureValidSession now => snd (ensureValidSession decodeJwtPayload now s)
  | Login outcome => snd (login outcome s)
  | Logout failure => snd (logout failure s)
  end.

Definition sessionRun (decodeJwtPayload : string -> option JwtPayload)
  (evs : list SessionEvent) (s : Session) : Session :=
  fold_left (fun acc ev => sessionStep decodeJwtPayload ev acc) evs s.

(** The header and the stored token agree: the header is ["Bearer "]
    followed by the stored token, and there is neither when no token, or an
    empty one, is stored. *)
Definition inSync (s : Session) : Prop :=
  authorization s
  = match storedToken s with
    | Some t => if JS.truthy t then Some (append "Bearer " t) else None
    | None => None
    end.

(** A decoder for the examples: ["opaque"] does not decode, ["forever"]
    has no expiry, every other token expires at 1700000000 seconds. *)
Definition sampleDecode (t : string) : option JwtPayload :=
  if String.eqb t "opaque" then None
  else if String.eqb t "forever" then Some (mkPayload None)
  else Some (mkPayload (Some 1700000000%Z)).

(** * Properties *)

(** ** Lists, counting and identifiers *)

Lemma truthy_true_iff (s : string) : JS.truthy s = true <-> s <> EmptyString.
Proof.
  destruct s; simpl; split; intro H; try reflexivity; try discriminate.
  now elim H.
Qed.

Lemma distinct_NoDup (xs : list string) : distinct xs = true -> NoDup xs.
Proof.
  induction xs as [|x rest IH]; simpl; intro H.
  - constructor.
  - apply andb_true_iff in H as [Hx Hrest].
    constructor; [|now apply IH].
    intro Hin. apply negb_true_iff in Hx.
    assert (existsb (String.eqb x) rest = true) as Hex.
    { apply existsb_exists. exists x. split; [exact Hin | apply String.eqb_refl]. }
    congruence.
Qed.

Lemma uniqueIds_injBelow (uuid : nat -> string) (n : nat) :
  uniqueIds uuid n = true -> injBelow uuid n.
Proof.
  unfold uniqueIds. intros H i j Hi Hj Heq.
  apply distinct_NoDup in H.
  rewrite (NoDup_nth (map uuid (seq 0 n)) EmptyString) in H.
  assert (forall k, k < n -> nth k (map uuid (seq 0 n)) EmptyString = uuid k) as Hnth.
  { intros k Hk.
    rewrite (nth_indep _ EmptyString (uuid 0)) by (now rewrite length_map, length_seq).
    rewrite (map_nth uuid (seq 0 n) 0 k). now rewrite seq_nth. }
  apply H; rewrite ?length_map, ?length_seq; try assumption.
  now rewrite !Hnth.
Qed.

Lemma injBelow_le (uuid : nat -> string) (n m : nat) :
  n <= m -> injBelow uuid m -> injBelow uuid n.
Proof.
  intros Hle H i j Hi Hj. apply H; lia.
Qed.

Lemma injBelow_NoDup_seq (uuid : nat -> string) (a k : nat) :
  injBelow uuid (a + k) -> NoDup (map uuid (seq a k)).
Proof.
  revert a. induction k as [|k IH]; intros a H; simpl.
  - constructor.
  - constructor.
    + intro Hin. apply in_map_iff in Hin as [j [Hj Hin]].
      apply in_seq in Hin. apply H in Hj; lia.
    + apply IH. replace (S a + k) with (a + S k) by lia. exact H.
Qed.

Lemma countActive_app (xs ys : list DraftOption) :
  countActiveOptions (xs ++ ys) = countActiveOptions xs + countActiveOptions ys.
Proof.
  unfold countActiveOptions. now rewrite filter_app, length_app.
Qed.

Lemma countActive_cons (o : DraftOption) (xs : list DraftOption) :
  countActiveOptions (o :: xs)
  = (if o_ativo o then 1 else 0) + countActiveOptions xs.
Proof.
  unfold countActiveOptions. simpl. now destruct (o_ativo o).
Qed.

Lemma countActive_filter_le (g : DraftOption -> bool) (xs : list DraftOption) :
  countActiveOptions (filter g xs) <= countActiveOptions xs.
Proof.
  induction xs as [|o xs IH]; simpl; [lia|].
  destruct (g o); rewrite ?countActive_cons; lia.
Qed.

Lemma mapS_length {S A B : Type} (f : A -> S -> B * S) (xs : list A) (s : S) :
  List.length (fst (JS.mapS f xs s)) = List.length xs.
Proof.
  revert s. induction xs as [|x xs IH]; intro s; simpl; [reflexivity|].
  destruct (f x s) as [y s1]. specialize (IH s1).
  destruct (JS.mapS f xs s1) as [ys s2]. simpl in *. now rewrite IH.
Qed.

(** A stateful map whose callback leaves every element and the state alone
    returns its input. *)
Lemma mapS_fixed {S A : Type} (f : A -> S -> A * S) (xs : list A) (s : S) :
  (forall x s', In x xs -> f x s' = (x, s')) -> JS.mapS f xs s = (xs, s).
Proof.
  induction xs as [|x xs IH]; intro H; simpl; [reflexivity|].
  rewrite (H x s) by now left.
  rewrite IH; [reflexivity|]. intros y s' Hy. apply H. now right.
Qed.

(** ** Option lists under the per-option handlers *)

Section OptionLists.

Variables (optionId : string) (updates : OptionUpdates).

(** The callback [updateOption] maps over the options of a question. *)
Let touch (option : DraftOption) : DraftOption :=
  if String.eqb (o_id option) optionId then spreadOption option updates else option.

(** The predicate [handleRemoveOption] filters the options with. *)
Let keep (option : DraftOption) : bool := negb (String.eqb (o_id option) optionId).

Lemma touch_absent (xs : list DraftOption) :
  ~ In optionId (map o_id xs) -> map touch xs = xs.
Proof.
  induction xs as [|o xs IH]; simpl; intro H; [reflexivity|].
  unfold touch at 1. destruct (String.eqb_spec (o_id o) optionId) as [E|E].
  - elim H. now left.
  - rewrite IH; [reflexivity|]. intro Hin. apply H. now right.
Qed.

Lemma find_absent (xs : list DraftOption) :
  JS.find (fun o => String.eqb (o_id o) optionId) xs = None ->
  ~ In optionId (map o_id xs).
Proof.
  unfold JS.find. intros H Hin. apply in_map_iff in Hin as [o [Ho Hin]].
  apply (find_none _ _ H) in Hin. rewrite Ho, String.eqb_refl in Hin. discriminate.
Qed.

Lemma touch_ids (xs : list DraftOption) :
  ou_id updates = None -> map o_id (map touch xs) = map o_id xs.
Proof.
  intro Hid. rewrite map_map. apply map_ext. intro o. unfold touch.
  destruct (String.eqb (o_id o) optionId); [|reflexivity].
  unfold spreadOption. simpl. now rewrite Hid.
Qed.

(** Without [ativo: true] in the updates no option becomes active. *)
Lemma touch_count_le (xs : list DraftOption) :
  ou_ativo updates <> Some true ->
  countActiveOptions (map touch xs) <= countActiveOptions xs.
Proof.
  intro Hu. induction xs as [|o xs IH]; simpl; [lia|].
  rewrite !countActive_cons. unfold touch at 1.
  destruct (String.eqb (o_id o) optionId); [|lia].
  unfold spreadOption. simpl.
  destruct (ou_ativo updates) as [[|]|]; simpl; try (now elim Hu);
    destruct (o_ativo o); lia.
Qed.

(** With [ativo: true] and identifiers that differ, the count grows by one
    exactly when the target was inactive. *)
Lemma touch_count_activate (xs : list DraftOption) :
  ou_id updates = None -> ou_ativo updates = Some true ->
  NoDup (map o_id xs) ->
  countActiveOptions (map touch xs)
  = countActiveOptions xs
    + match JS.find (fun o => String.eqb (o_id o) optionId) xs with
      | Some target => if o_ativo target then 0 else 1
      | None => 0
      end.
Proof.
  intros Hid Hu. induction xs as [|o xs IH]; simpl; intro Hnd; [reflexivity|].
  inversion Hnd as [|? ? Hnotin Hnd']; subst.
  rewrite !countActive_cons. unfold touch at 1.
  destruct (String.eqb_spec (o_id o) optionId) as [E|E].
  - rewrite touch_absent by (now rewrite <- E).
    unfold spreadOption. simpl. rewrite Hu. simpl. destruct (o_ativo o); lia.
  - rewrite (IH Hnd'). unfold JS.find. lia.
Qed.

Lemma keep_length (xs : list DraftOption) :
  NoDup (map o_id xs) -> List.length xs <= S (List.length (filter keep xs)).
Proof.
  induction xs as [|o xs IH]; simpl; intro Hnd; [lia|].
  inversion Hnd as [|? ? Hnotin Hnd']; subst.
  unfold keep at 1. destruct (String.eqb_spec (o_id o) optionId) as [E|E]; simpl.
  - assert (filter keep xs = xs) as ->; [|lia].
    apply forallb_filter_id. apply forallb_forall. intros o' Ho'.
    unfold keep. apply negb_true_iff. apply String.eqb_neq. intro E'.
    apply Hnotin. rewrite E, <- E'. now apply in_map.
  - specialize (IH Hnd'). lia.
Qed.

Lemma filter_ids_NoDup (g : DraftOption -> bool) (xs : list DraftOption) :
  NoDup (map o_id xs) -> NoDup (map o_id (filter g xs)).
Proof.
  induction xs as [|o xs IH]; simpl; intro Hnd; [constructor|].
  inversion Hnd as [|? ? Hnotin Hnd']; subst.
  destruct (g o); simpl; [|now apply IH].
  constructor; [|now apply IH].
  intro Hin. apply Hnotin. apply in_map_iff in Hin as [o' [Ho' Hin]].
  apply filter_In in Hin as [Hin _]. rewrite <- Ho'. now apply in_map.
Qed.

End OptionLists.

(** ** The invariant of the question and option tree *)

Section Invariant.

Variable uuid : nat -> string.

Lemma wfQuestion_le (n m : nat) (q : DraftQuestion) :
  n <= m -> wfQuestion uuid n q -> wfQuestion uuid m q.
Proof.
  intros Hle (Hc & Hne & Hnd & Hids). repeat split; try assumption.
  eapply Forall_impl; [|exact Hids]. intros o [k [Hk Ho]]. exists k. split; [lia|exact Ho].
Qed.

Lemma wfQuestions_le (n m : nat) (qs : list DraftQuestion) :
  n <= m -> Forall (wfQuestion uuid n) qs -> Forall (wfQuestion uuid m) qs.
Proof.
  intros Hle H. eapply Forall_impl; [|exact H]. intro q. now apply wfQuestion_le.
Qed.

Lemma wfQuestion_same_options (n : nat) (q q' : DraftQuestion) :
  q_options q' = q_options q -> wfQuestion uuid n q -> wfQuestion uuid n q'.
Proof.
  unfold wfQuestion. intros ->. exact (fun H => H).
Qed.

(** *** The handlers only ever draw more identifiers *)

Lemma handleAddOption_question_draws (questionId : string) (q : DraftQuestion)
  (s : option string * nat) :
  snd s <= snd (snd (handleAddOption_question uuid questionId q s)).
Proof.
  unfold handleAddOption_question.
  destruct (negb (String.eqb (q_id q) questionId)); simpl; lia.
Qed.

Lemma mapS_draws {A B : Type} (f : A -> nat -> B * nat) (xs : list A) (n : nat) :
  (forall x m, m <= snd (f x m)) -> n <= snd (JS.mapS f xs n).
Proof.
  intro Hf. revert n. induction xs as [|x xs IH]; intro n; simpl; [lia|].
  pose proof (Hf x n) as H1. destruct (f x n) as [y n1].
  pose proof (IH n1) as H2. destruct (JS.mapS f xs n1) as [ys n2]. simpl in *. lia.
Qed.

Lemma handleAddOption_draws (questionId : string) (qs : list DraftQuestion)
  (s : option string * nat) :
  snd s <= snd (snd (JS.mapS (handleAddOption_question uuid questionId) qs s)).
Proof.
  revert s. induction qs as [|q qs IH]; intro s; simpl; [lia|].
  pose proof (handleAddOption_question_draws questionId q s) as H1.
  destruct (handleAddOption_question uuid questionId q s) as [q' s1].
  pose proof (IH s1) as H2. destruct (JS.mapS _ qs s1) as [qs' s2]. simpl in *. lia.
Qed.

Lemma templateQuestion_draws (entry : nat * string) (n : nat) :
  n <= snd (templateQuestion uuid entry n).
Proof.
  unfold templateQuestion. destruct entry as [index texto]. simpl. lia.
Qed.

Lemma step_draws (ev : Event) (s : Page * nat) : snd s <= snd (step uuid ev s).
Proof.
  destruct s as [p n]. destruct ev; simpl; try lia.
  - unfold selectTemplate. destruct (String.eqb value "supermarkets"); [|simpl; lia].
    pose proof (mapS_draws (templateQuestion uuid) (indexed TEMPLATE_QUESTIONS) n
                           templateQuestion_draws) as H.
    destruct (JS.mapS _ _ n) as [qs n1]. simpl in *. exact H.
  - unfold handleAddOption.
    pose proof (handleAddOption_draws questionId (questions p) (error p, n)) as H.
    destruct (JS.mapS _ _ _) as [qs [err n1]]. simpl in *. exact H.
Qed.

Lemma run_draws (evs : list Event) (s : Page * nat) : snd s <= snd (run uuid evs s).
Proof.
  revert s. induction evs as [|ev evs IH]; intro s; simpl; [lia|].
  etransitivity; [apply (step_draws ev) | apply IH].
Qed.

(** *** Each handler keeps the questions well formed, as long as the
    identifiers drawn differ *)

Variable bound : nat.
Hypothesis fresh : injBelow uuid bound.

Lemma createQuestionDraft_wf (ordem : Z) (n : nat) :
  n + 6 <= bound ->
  wfQuestion uuid (n + 6) (fst (createQuestionDraft uuid ordem n))
  /\ snd (createQuestionDraft uuid ordem n) = n + 6.
Proof.
  intro Hb. split; [|simpl; lia].
  unfold wfQuestion. simpl. repeat split.
  - unfold countActiveOptions, MAX_ACTIVE_OPTIONS. simpl. lia.
  - discriminate.
  - apply (injBelow_NoDup_seq (uuid := uuid) (S n) 5).
    eapply injBelow_le; [|exact fresh]. lia.
  - repeat (apply Forall_cons; [eexists; split; [|reflexivity]; lia|]). apply Forall_nil.
Qed.

Lemma updateOption_question_wf (questionId optionId : string)
  (updates : OptionUpdates) (q : DraftQuestion) (err : option string) (n : nat) :
  ou_id updates = None ->
  wfQuestion uuid n q ->
  wfQuestion uuid n (fst (updateOption_question questionId optionId updates q err)).
Proof.
  intros Hid Hq. unfold updateOption_question.
  destruct (negb (String.eqb (q_id q) questionId)); [exact Hq|].
  destruct (JS.find _ (q_options q)) as [target|] eqn:Hfind; [|exact Hq].
  destruct (_ && _) eqn:Hgate; [exact Hq|]. simpl.
  destruct Hq as (Hc & Hne & Hnd & Hids). unfold wfQuestion. simpl.
  rewrite touch_ids by exact Hid. repeat split.
  - destruct (ou_ativo updates) as [[|]|] eqn:Hu.
    + rewrite touch_count_activate by assumption. rewrite Hfind.
      apply andb_false_iff in Hgate as [Hgate|Hgate].
      * apply negb_false_iff in Hgate. rewrite Hgate. lia.
      * apply Nat.leb_gt in Hgate. destruct (o_ativo target); lia.
    + etransitivity; [apply touch_count_le; congruence | exact Hc].
    + etransitivity; [apply touch_count_le; congruence | exact Hc].
  - destruct (q_options q); [now elim Hne | discriminate].
  - exact Hnd.
  - apply Forall_forall. intros o Ho. apply in_map_iff in Ho as [o' [Ho' Hin]].
    rewrite Forall_forall in Hids. destruct (Hids o' Hin) as [k [Hk Hk']].
    exists k. split; [exact Hk|]. rewrite <- Hk', <- Ho'.
    destruct (String.eqb (o_id o') optionId); [|reflexivity].
    unfold spreadOption. simpl. now rewrite Hid.
Qed.

Lemma updateOption_wf (questionId optionId : string) (updates : OptionUpdates)
  (qs : list DraftQuestion) (err : option string) (n : nat) :
  ou_id updates = None ->
  Forall (wfQuestion uuid n) qs ->
  Forall (wfQuestion uuid n)
         (fst (JS.mapS (updateOption_question questionId optionId updates) qs err)).
Proof.
  intros Hid. revert err. induction qs as [|q qs IH]; intros err H; simpl; [constructor|].
  inversion H as [|? ? Hq Hqs]; subst.
  pose proof (@updateOption_question_wf questionId optionId updates q err n Hid Hq) as Hq'.
  destruct (updateOption_question _ _ _ q err) as [q' err1].
  specialize (IH err1 Hqs).
  destruct (JS.mapS _ qs err1) as [qs' err2]. simpl in *. now constructor.
Qed.

Lemma handleRemoveOption_question_wf (optionId : string) (q : DraftQuestion) (n : nat) :
  wfQuestion uuid n q ->
  wfQuestion uuid n
    (withOptions q
       (if 1 <? List.length (q_options q)
        then filter (fun option => negb (String.eqb (o_id option) optionId)) (q_options q)
        else q_options q)).
Proof.
  intros Hq. destruct (1 <? List.length (q_options q)) eqn:Hlen.
  - destruct Hq as (Hc & Hne & Hnd & Hids). unfold wfQuestion. simpl. repeat split.
    + etransitivity; [apply countActive_filter_le | exact Hc].
    + apply Nat.ltb_lt in Hlen. pose proof (keep_length optionId _ Hnd) as Hk.
      intro E. rewrite E in Hk. simpl in Hk. lia.
    + now apply filter_ids_NoDup.
    + apply Forall_forall. intros o Ho. apply filter_In in Ho as [Ho _].
      rewrite Forall_forall in Hids. now apply Hids.
  - eapply wfQuestion_same_options; [|exact Hq]. reflexivity.
Qed.

Lemma handleAddOption_question_wf (questionId : string) (q : DraftQuestion)
  (err : option string) (n : nat) :
  snd (snd (handleAddOption_question uuid questionId q (err, n))) <= bound ->
  wfQuestion uuid n q ->
  wfQuestion uuid (snd (snd (handleAddOption_question uuid questionId q (err, n))))
             (fst (handleAddOption_question uuid questionId q (err, n))).
Proof.
  unfold handleAddOption_question.
  remember (MAX_ACTIVE_OPTIONS <=? countActiveOptions (q_options q)) as lim eqn:Hlim.
  destruct (negb (String.eqb (q_id q) questionId)); simpl; intros Hb Hq; [exact Hq|].
  destruct Hq as (Hc & Hne & Hnd & Hids).
  unfold wfQuestion. simpl. repeat split.
  - rewrite countActive_app, countActive_cons. unfold countActiveOptions at 2. simpl.
    destruct lim; simpl; symmetry in Hlim.
    + lia.
    + apply Nat.leb_gt in Hlim. lia.
  - destruct (q_options q); discriminate.
  - rewrite map_app. simpl. apply NoDup_app; [exact Hnd | repeat constructor; simpl; tauto |].
    intros i Hi [Hi'|[]]. subst i.
    apply in_map_iff in Hi as [o [Ho Hin]]. rewrite Forall_forall in Hids.
    destruct (Hids o Hin) as [k [Hk Hk']].
    assert (k = n); [|lia]. apply fresh; try lia. congruence.
  - apply Forall_app. split.
    + eapply Forall_impl; [|exact Hids]. intros o [k [Hk Ho]]. exists k. split; [lia|exact Ho].
    + repeat constructor. exists n. split; [lia|reflexivity].
Qed.

Lemma handleAddOption_wf (questionId : string) (qs : list DraftQuestion)
  (err : option string) (n : nat) :
  snd (snd (JS.mapS (handleAddOption_question uuid questionId) qs (err, n))) <= bound ->
  Forall (wfQuestion uuid n) qs ->
  Forall (wfQuestion uuid (snd (snd (JS.mapS (handleAddOption_question uuid questionId) qs (err, n)))))
         (fst (JS.mapS (handleAddOption_question uuid questionId) qs (err, n))).
Proof.
  revert err n. induction qs as [|q qs IH]; intros err n; simpl; [constructor|].
  pose proof (@handleAddOption_question_wf questionId q err n) as Hq.
  pose proof (handleAddOption_question_draws questionId q (err, n)) as Hd.
  destruct (handleAddOption_question uuid questionId q (err, n)) as [q' [err1 n1]].
  specialize (IH err1 n1).
  pose proof (handleAddOption_draws questionId qs (err1, n1)) as Hd'.
  destruct (JS.mapS _ qs (err1, n1)) as [qs' [err2 n2]]. simpl in *.
  intros Hb H. inversion H as [|? ? Hwq Hwqs]; subst.
  constructor.
  - apply (wfQuestion_le (n := n1)); [lia|]. apply Hq; [lia | exact Hwq].
  - apply IH; [exact Hb|]. now apply (wfQuestions_le (n := n)).
Qed.

Lemma countActive_all (xs : list DraftOption) :
  Forall (fun o => o_ativo o = true) xs -> countActiveOptions xs = List.length xs.
Proof.
  induction 1 as [|o xs Ho _ IH]; [reflexivity|].
  rewrite countActive_cons, Ho, IH. reflexivity.
Qed.

(** What [TEMPLATE_OPTIONS.map(...)] builds from a list of texts. *)
Lemma templateOptions_spec (texts : list string) (n : nat) :
  snd (JS.mapS (templateOption uuid) texts n) = n + List.length texts
  /\ map o_id (fst (JS.mapS (templateOption uuid) texts n))
     = map uuid (seq n (List.length texts))
  /\ map o_texto (fst (JS.mapS (templateOption uuid) texts n)) = texts
  /\ Forall (fun o => o_ativo o = true) (fst (JS.mapS (templateOption uuid) texts n)).
Proof.
  revert n. induction texts as [|t texts IH]; intro n; simpl.
  - repeat split; [lia | constructor].
  - specialize (IH (S n)). destruct (JS.mapS _ texts (S n)) as [opts n1]. simpl in *.
    destruct IH as (Hn & Hids & Htexts & Hact). repeat split.
    + lia.
    + now rewrite Hids.
    + now rewrite Htexts.
    + now constructor.
Qed.

Lemma templateQuestion_wf (entry : nat * string) (n : nat) :
  snd (templateQuestion uuid entry n) <= bound ->
  wfQuestion uuid (snd (templateQuestion uuid entry n)) (fst (templateQuestion uuid entry n)).
Proof.
  unfold templateQuestion. destruct entry as [index texto].
  unfold uniqueId.
  pose proof (templateOptions_spec TEMPLATE_OPTIONS (S n)) as (Hn & Hids & _ & Hact).
  pose proof (mapS_length (templateOption uuid) TEMPLATE_OPTIONS (S n)) as Hlen.
  destruct (JS.mapS (templateOption uuid) TEMPLATE_OPTIONS (S n)) as [opts n1].
  simpl fst in *. simpl snd in *. intro Hb.
  unfold wfQuestion. simpl q_options. repeat split.
  - rewrite (countActive_all Hact), Hlen. unfold MAX_ACTIVE_OPTIONS. simpl. lia.
  - intro E. rewrite E in Hlen. discriminate.
  - rewrite Hids. apply injBelow_NoDup_seq.
    eapply injBelow_le; [|exact fresh]. lia.
  - apply Forall_forall. intros o Ho.
    assert (In (o_id o) (map o_id opts)) as Hin by now apply in_map.
    rewrite Hids in Hin. apply in_map_iff in Hin as [k [Hk Hin]].
    apply in_seq in Hin. exists k. split; [lia | now symmetry].
Qed.

Lemma template_wf (entries : list (nat * string)) (n : nat) :
  snd (JS.mapS (templateQuestion uuid) entries n) <= bound ->
  Forall (wfQuestion uuid (snd (JS.mapS (templateQuestion uuid) entries n)))
         (fst (JS.mapS (templateQuestion uuid) entries n)).
Proof.
  revert n. induction entries as [|entry entries IH]; intro n; simpl; [constructor|].
  pose proof (@templateQuestion_wf entry n) as Hq.
  destruct (templateQuestion uuid entry n) as [q n1].
  specialize (IH n1).
  pose proof (mapS_draws (templateQuestion uuid) entries n1 templateQuestion_draws) as Hd.
  destruct (JS.mapS _ entries n1) as [qs n2]. simpl in *.
  intro Hb. constructor.
  - apply (wfQuestion_le (n := n1)); [lia|]. apply Hq. lia.
  - now apply IH.
Qed.

(** *** Every event keeps the state well formed *)

Lemma step_wf (ev : Event) (s : Page * nat) :
  snd (step uuid ev s) <= bound -> wfState uuid s -> wfState uuid (step uuid ev s).
Proof.
  destruct s as [p n]. unfold wfState. simpl fst. simpl snd at 2.
  intros Hb [Hne Hwf]. destruct ev; simpl in Hb |- *; try (split; assumption).
  - (* SelectTemplate *)
    unfold selectTemplate in *.
    destruct (String.eqb value "supermarkets"); [|split; assumption].
    pose proof (@template_wf (indexed TEMPLATE_QUESTIONS) n) as Ht.
    pose proof (mapS_length (templateQuestion uuid) (indexed TEMPLATE_QUESTIONS) n) as Hlen.
    destruct (JS.mapS _ _ n) as [qs n1]. simpl in *. split; [|now apply Ht].
    intro E. rewrite E in Hlen. discriminate.
  - (* ClickLimpar *)
    split; [discriminate|]. constructor; [|constructor].
    replace (S (S (S (S (S (S n)))))) with (n + 6) by lia.
    refine (proj1 (@createQuestionDraft_wf 1%Z n _)). lia.
  - (* ClickAddQuestion *)
    split; [destruct (questions p); discriminate|].
    apply Forall_app. split.
    + apply (wfQuestions_le (n := n)); [lia | exact Hwf].
    + constructor; [|constructor].
      replace (S (S (S (S (S (S n)))))) with (n + 6) by lia.
      refine (proj1 (@createQuestionDraft_wf (Z.of_nat (List.length (questions p)) + 1)%Z n _)).
      lia.
  - (* ClickRemoveQuestion *)
    unfold handleRemoveQuestion. simpl.
    destruct (filter _ (questions p)) as [|q qs] eqn:Hf; [split; assumption|].
    split; [discriminate|]. rewrite <- Hf.
    apply Forall_forall. intros q' Hq'. apply filter_In in Hq' as [Hq' _].
    rewrite Forall_forall in Hwf. now apply Hwf.
  - (* ChangeQuestionTexto *)
    split; [destruct (questions p); [now elim Hne | discriminate]|].
    apply Forall_map. eapply Forall_impl; [|exact Hwf]. intros q Hq.
    destruct (String.eqb (q_id q) questionId); [|exact Hq].
    eapply wfQuestion_same_options; [|exact Hq]. reflexivity.
  - (* ChangeQuestionOrdem *)
    split; [destruct (questions p); [now elim Hne | discriminate]|].
    apply Forall_map. eapply Forall_impl; [|exact Hwf]. intros q Hq.
    destruct (String.eqb (q_id q) questionId); [|exact Hq].
    eapply wfQuestion_same_options; [|exact Hq]. reflexivity.
  - (* ClickAddOption *)
    unfold handleAddOption in *.
    pose proof (@handleAddOption_wf questionId (questions p) (error p) n) as Ha.
    pose proof (mapS_length (handleAddOption_question uuid questionId)
                            (questions p) (error p, n)) as Hlen.
    destruct (JS.mapS _ _ _) as [qs [err n1]]. simpl in *. split; [|now apply Ha].
    intro E. rewrite E in Hlen. destruct (questions p); [now elim Hne | discriminate].
  - (* ClickRemoveOption *)
    split; [destruct (questions p); [now elim Hne | discriminate]|].
    apply Forall_map. eapply Forall_impl; [|exact Hwf]. intros q Hq.
    destruct (String.eqb (q_id q) questionId); [|exact Hq].
    now apply handleRemoveOption_question_wf.
  - (* ChangeOptionTexto *)
    unfold updateOption.
    pose proof (@updateOption_wf questionId optionId (textoOfOption value)
                                 (questions p) (error p) n eq_refl Hwf) as Hu.
    pose proof (mapS_length (updateOption_question questionId optionId (textoOfOption value))
                            (questions p) (error p)) as Hlen.
    destruct (JS.mapS _ _ _) as [qs err]. simpl in *. split; [|exact Hu].
    intro E. rewrite E in Hlen. destruct (questions p); [now elim Hne | discriminate].
  - (* ChangeOptionAtivo *)
    unfold updateOption.
    pose proof (@updateOption_wf questionId optionId (ativoOfOption checked)
                                 (questions p) (error p) n eq_refl Hwf) as Hu.
    pose proof (mapS_length (updateOption_question questionId optionId (ativoOfOption checked))
                            (questions p) (error p)) as Hlen.
    destruct (JS.mapS _ _ _) as [qs err]. simpl in *. split; [|exact Hu].
    intro E. rewrite E in Hlen. destruct (questions p); [now elim Hne | discriminate].
Qed.

Lemma run_wf (evs : list Event) (s : Page * nat) :
  snd (run uuid evs s) <= bound -> wfState uuid s -> wfState uuid (run uuid evs s).
Proof.
  revert s. induction evs as [|ev evs IH]; intros s Hb Hs; simpl in *; [exact Hs|].
  apply IH; [exact Hb|]. apply step_wf; [|exact Hs].
  etransitivity; [apply (run_draws evs) | exact Hb].
Qed.

Lemma initialPage_wf : 6 <= bound -> wfState uuid (initialPage uuid 0).
Proof.
  intro Hb. split; [discriminate|]. constructor; [|constructor].
  refine (proj1 (@createQuestionDraft_wf 1%Z 0 _)). simpl. exact Hb.
Qed.

Lemma reach_draws (evs : list Event) : 6 <= snd (reach uuid evs).
Proof.
  unfold reach. etransitivity; [|apply run_draws]. simpl. lia.
Qed.

End Invariant.

(** Every state the page reaches is well formed when the identifiers drawn
    on the way differ. *)
Lemma reach_wf (uuid : nat -> string) (evs : list Event) :
  uniqueIds uuid (snd (reach uuid evs)) = true -> wfState uuid (reach uuid evs).
Proof.
  intro Hu. apply uniqueIds_injBelow in Hu.
  apply (run_wf Hu); [apply Nat.le_refl|].
  apply (initialPage_wf Hu). apply reach_draws.
Qed.

(** ** The invariants of the draft *)

(** C1. Active-option cap: in every state the page reaches from its first
    render, whatever the sequence of events (adding and removing questions
    and options, editing texts and orders, toggling options, and also
    loading the template and clearing), every question has at most
    [MAX_ACTIVE_OPTIONS] = 5 active options, provided the identifiers that
    [uniqueId] returned on the way are pairwise different. *)
Theorem active_option_cap (uuid : nat -> string) (evs : list Event) :
  uniqueIds uuid (snd (reach uuid evs)) = true ->
  Forall (fun q => countActiveOptions (q_options q) <= 5)
         (questions (fst (reach uuid evs))).
Proof.
  intro Hu. destruct (reach_wf uuid evs Hu) as [_ Hwf].
  eapply Forall_impl; [|exact Hwf]. intros q (Hc & _). exact Hc.
Qed.

Lemma active_option_cap_witness :
  uniqueIds counterIds (snd (reach counterIds sampleSession)) = true
  /\ Forall (fun q => countActiveOptions (q_options q) <= 5)
            (questions (fst (reach counterIds sampleSession))).
Proof.
  split; [vm_compute; reflexivity|].
  apply (@active_option_cap counterIds sampleSession). vm_compute. reflexivity.
Defined.

(** C8. Minimum cardinality: in every state the page reaches (identifiers
    pairwise different) the draft has at least one question and every
    question has at least one option; [handleRemoveOption] leaves a
    question with a single option as it is, and [handleRemoveQuestion]
    leaves a draft with a single question as it is. *)
Theorem minimum_cardinality (uuid : nat -> string) :
  (forall evs,
      uniqueIds uuid (snd (reach uuid evs)) = true ->
      1 <= List.length (questions (fst (reach uuid evs)))
      /\ Forall (fun q => 1 <= List.length (q_options q))
                (questions (fst (reach uuid evs))))
  /\ (forall questionId optionId p i q,
         nth_error (questions p) i = Some q ->
         List.length (q_options q) = 1 ->
         nth_error (questions (handleRemoveOption questionId optionId p)) i = Some q)
  /\ (forall id p,
         List.length (questions p) = 1 ->
         questions (handleRemoveQuestion id p) = questions p).
Proof.
  split; [|split].
  - intros evs Hu. destruct (reach_wf uuid evs Hu) as [Hne Hwf]. split.
    + destruct (questions (fst (reach uuid evs))); [now elim Hne | simpl; lia].
    + eapply Forall_impl; [|exact Hwf]. intros q (_ & Hopts & _).
      destruct (q_options q); [now elim Hopts | simpl; lia].
  - intros questionId optionId p i q Hq Hlen. unfold handleRemoveOption. simpl.
    rewrite nth_error_map, Hq. simpl. f_equal.
    destruct (String.eqb (q_id q) questionId); [|reflexivity].
    rewrite Hlen. simpl. now destruct q.
  - intros id p Hlen. unfold handleRemoveQuestion. simpl.
    destruct (questions p) as [|q [|q' qs]]; try discriminate. simpl.
    now destruct (negb (String.eqb (q_id q) id)).
Qed.

Lemma minimum_cardinality_witness :
  (1 <= List.length (questions (fst (reach counterIds sampleSession)))
   /\ Forall (fun q => 1 <= List.length (q_options q))
             (questions (fst (reach counterIds sampleSession))))
  /\ nth_error (questions (handleRemoveOption "qb" "b1" editedPage)) 1
     = nth_error (questions editedPage) 1
  /\ questions (handleRemoveQuestion "id-7" (fst (reach counterIds sampleSession)))
     = questions (fst (reach counterIds sampleSession)).
Proof.
  pose proof (minimum_cardinality counterIds) as (Hinv & Hopt & Hq).
  split; [|split].
  - apply Hinv. vm_compute. reflexivity.
  - apply (Hopt "qb"%string "b1"%string editedPage 1); reflexivity.
  - apply Hq. reflexivity.
Defined.

(** ** Clearing and loading the template *)

(** C7, as the page does it. The "Limpar" button empties the title and the
    description, sets the active flag, empties the expiry and the template
    selection, and leaves exactly one question, of order 1 and empty text,
    holding the five options [createQuestionDraft] builds, each with empty
    text and [ativo = true]. *)
Theorem clear_restores_initial_draft (uuid : nat -> string) (p : Page) (n : nat) :
  titulo (fst (handleClear uuid p n)) = EmptyString
  /\ descricao (fst (handleClear uuid p n)) = EmptyString
  /\ ativo (fst (handleClear uuid p n)) = true
  /\ dataValidade (fst (handleClear uuid p n)) = EmptyString
  /\ exists q,
       questions (fst (handleClear uuid p n)) = [q]
       /\ q_texto q = EmptyString
       /\ q_ordem q = 1%Z
       /\ List.length (q_options q) = 5
       /\ Forall (fun o => o_texto o = EmptyString /\ o_ativo o = true) (q_options q).
Proof.
  repeat split; try reflexivity.
  eexists. split; [reflexivity|]. simpl.
  repeat split; repeat constructor.
Qed.

(** C7, as the specification words it, fails: after "Limpar" on the edited
    page the only question holds five options, not one. *)
Lemma clear_single_option_counterexample :
  ~ (titulo (fst (handleClear counterIds editedPage 0)) = EmptyString
     /\ descricao (fst (handleClear counterIds editedPage 0)) = EmptyString
     /\ ativo (fst (handleClear counterIds editedPage 0)) = true
     /\ dataValidade (fst (handleClear counterIds editedPage 0)) = EmptyString
     /\ exists q o,
          questions (fst (handleClear counterIds editedPage 0)) = [q]
          /\ q_texto q = EmptyString
          /\ q_options q = [o]
          /\ o_texto o = EmptyString /\ o_ativo o = true).
Proof.
  intros (_ & _ & _ & _ & q & o & Hq & _ & Ho & _).
  vm_compute in Hq. injection Hq as Hq. subst q. discriminate Ho.
Qed.

(** C9. Selecting the supermarket template, on any page: the draft becomes
    the ten template questions in order, with orders 1 to 10, each holding
    the five template options, all active; the title, the description and
    the active flag are those of the template. *)
Theorem template_replaces_draft (uuid : nat -> string) (p : Page) (n : nat) :
  List.length (questions (fst (selectTemplate uuid "supermarkets" p n))) = 10
  /\ map q_ordem (questions (fst (selectTemplate uuid "supermarkets" p n)))
     = [1; 2; 3; 4; 5; 6; 7; 8; 9; 10]%Z
  /\ map q_texto (questions (fst (selectTemplate uuid "supermarkets" p n)))
     = TEMPLATE_QUESTIONS
  /\ Forall (fun q => List.length (q_options q) = 5
                      /\ countActiveOptions (q_options q) = 5
                      /\ map o_texto (q_options q) = TEMPLATE_OPTIONS)
            (questions (fst (selectTemplate uuid "supermarkets" p n)))
  /\ titulo (fst (selectTemplate uuid "supermarkets" p n)) = TEMPLATE_TITLE
  /\ descricao (fst (selectTemplate uuid "supermarkets" p n)) = TEMPLATE_DESCRIPTION
  /\ ativo (fst (selectTemplate uuid "supermarkets" p n)) = true.
Proof.
  repeat split; try reflexivity.
  repeat constructor.
Qed.

(** ** The per-question and per-option handlers *)

Lemma mapS_nth {S A B : Type} (f : A -> S -> B * S) (xs : list A) (s : S)
  (i : nat) (x : A) :
  nth_error xs i = Some x ->
  exists s', nth_error (fst (JS.mapS f xs s)) i = Some (fst (f x s')).
Proof.
  revert s i. induction xs as [|y xs IH]; intros s i Hx; [now destruct i|].
  simpl. destruct (f y s) as [y' s1] eqn:Hy.
  destruct i as [|i]; simpl in Hx.
  - injection Hx as ->. exists s. destruct (JS.mapS f xs s1). simpl. now rewrite Hy.
  - destruct (IH s1 i Hx) as [s' Hs']. exists s'.
    destruct (JS.mapS f xs s1). exact Hs'.
Qed.

(** A stateful map whose callback never touches the state is a map. *)
Lemma mapS_pure {S A B : Type} (f : A -> S -> B * S) (g : A -> B)
  (xs : list A) (s : S) :
  (forall x s', In x xs -> f x s' = (g x, s')) -> JS.mapS f xs s = (map g xs, s).
Proof.
  induction xs as [|x xs IH]; intro H; simpl; [reflexivity|].
  rewrite (H x s) by now left.
  rewrite IH; [reflexivity|]. intros y s' Hy. apply H. now right.
Qed.

Lemma withOptions_same (q : DraftQuestion) : withOptions q (q_options q) = q.
Proof. now destruct q. Qed.

Lemma setQuestions_same (p : Page) : setQuestions (questions p) p = p.
Proof. now destruct p. Qed.

Lemma setError_same (p : Page) : setError (error p) p = p.
Proof. now destruct p. Qed.

(** The warning of [handleAddOption] is raised exactly when an addressed
    question is at the cap, and then it stays. *)
Lemma handleAddOption_error (uuid : nat -> string) (questionId : string)
  (qs : list DraftQuestion) (err : option string) (n : nat) :
  fst (snd (JS.mapS (handleAddOption_question uuid questionId) qs (err, n)))
  = if existsb (fun q => String.eqb (q_id q) questionId
                         && (MAX_ACTIVE_OPTIONS <=? countActiveOptions (q_options q))) qs
    then Some LIMIT_ON_ADD else err.
Proof.
  revert err n. induction qs as [|q qs IH]; intros err n; [reflexivity|].
  cbn [JS.mapS existsb]. unfold handleAddOption_question at 1.
  destruct (String.eqb (q_id q) questionId); cbn [negb andb].
  - remember (MAX_ACTIVE_OPTIONS <=? countActiveOptions (q_options q)) as lim.
    cbn [createOptionDraft uniqueId fst snd].
    specialize (IH (if lim then Some LIMIT_ON_ADD else err) (S n)).
    destruct (JS.mapS _ qs _) as [qs' [err2 n2]]. cbn [fst snd] in *. rewrite IH.
    destruct lim; cbn [orb]; [|reflexivity].
    now destruct (existsb _ qs).
  - specialize (IH err n).
    destruct (JS.mapS _ qs _) as [qs' [err2 n2]]. cbn [fst snd] in *. exact IH.
Qed.

(** When every addressed question refuses the activation, [updateOption]
    returns the questions as they were and raises its warning. *)
Lemma updateOption_all_refused (questionId optionId : string)
  (qs : list DraftQuestion) (err : option string) :
  (forall q, In q qs -> q_id q = questionId ->
             exists target,
               JS.find (fun o => String.eqb (o_id o) optionId) (q_options q) = Some target
               /\ o_ativo target = false
               /\ MAX_ACTIVE_OPTIONS <= countActiveOptions (q_options q)) ->
  JS.mapS (updateOption_question questionId optionId (ativoOfOption true)) qs err
  = (qs, if existsb (fun q => String.eqb (q_id q) questionId) qs
         then Some LIMIT_ON_TOGGLE else err).
Proof.
  revert err. induction qs as [|q qs IH]; intros err H; [reflexivity|].
  cbn [JS.mapS existsb]. unfold updateOption_question at 1.
  destruct (String.eqb_spec (q_id q) questionId) as [E|E]; cbn [negb orb].
  - destruct (H q (or_introl eq_refl) E) as (target & Hfind & Hoff & Hcap).
    rewrite Hfind. cbn [ou_ativo ativoOfOption]. rewrite Hoff.
    apply Nat.leb_le in Hcap. rewrite Hcap. cbn [negb andb].
    rewrite IH by (intros q' Hq'; apply H; now right).
    now destruct (existsb _ qs).
  - rewrite IH by (intros q' Hq'; apply H; now right). reflexivity.
Qed.

(** C5. [handleAddOption] is never refused: the question it addresses, at
    its place in the draft, keeps its identifier, text and order, and its
    options become the former options followed by exactly one new option,
    with empty text. When the question already has five or more active
    options the new option is inactive and the warning [LIMIT_ON_ADD] is
    the page's error; otherwise the new option is active, and when no
    addressed question is at the cap the page's error is left as it
    was. *)
Theorem add_option_appends (uuid : nat -> string) (questionId : string)
  (p : Page) (n i : nat) (q : DraftQuestion) :
  nth_error (questions p) i = Some q ->
  q_id q = questionId ->
  (exists q' newOption,
      nth_error (questions (fst (handleAddOption uuid questionId p n))) i = Some q'
      /\ q_id q' = q_id q
      /\ q_texto q' = q_texto q
      /\ q_ordem q' = q_ordem q
      /\ q_options q' = q_options q ++ [newOption]
      /\ List.length (q_options q') = S (List.length (q_options q))
      /\ o_texto newOption = EmptyString
      /\ (5 <= countActiveOptions (q_options q) ->
          o_ativo newOption = false
          /\ countActiveOptions (q_options q') = countActiveOptions (q_options q)
          /\ error (fst (handleAddOption uuid questionId p n)) = Some LIMIT_ON_ADD)
      /\ (countActiveOptions (q_options q) < 5 ->
          o_ativo newOption = true
          /\ countActiveOptions (q_options q') = S (countActiveOptions (q_options q))))
  /\ ((forall q', In q' (questions p) -> q_id q' = questionId ->
                  countActiveOptions (q_options q') < 5) ->
      error (fst (handleAddOption uuid questionId p n)) = error p).
Proof.
  intros Hq Hid.
  pose proof (handleAddOption_error uuid questionId (questions p) (error p) n) as Herr.
  destruct (mapS_nth (handleAddOption_question uuid questionId) (questions p)
                     (error p, n) i Hq) as [[e' n'] Hnth].
  unfold handleAddOption.
  destruct (JS.mapS _ (questions p) (error p, n)) as [qs [err n1]].
  cbn [fst snd error questions setError setQuestions] in *.
  unfold handleAddOption_question in Hnth.
  rewrite Hid, String.eqb_refl in Hnth. cbn [negb fst snd createOptionDraft uniqueId] in Hnth.
  split.
  - eexists. eexists. split; [exact Hnth|].
    cbn [withOptions q_id q_texto q_ordem q_options o_texto o_ativo].
    split; [reflexivity|]. split; [reflexivity|]. split; [reflexivity|].
    split; [reflexivity|].
    split; [rewrite length_app; cbn [List.length]; lia|].
    split; [reflexivity|].
    rewrite countActive_app, countActive_cons. cbn [o_ativo].
    change (countActiveOptions []) with 0. split.
    + intro Hcap. apply Nat.leb_le in Hcap.
      change 5 with MAX_ACTIVE_OPTIONS in Hcap. rewrite Hcap. cbn [negb].
      split; [reflexivity|]. split; [lia|].
      rewrite Herr.
      assert (existsb (fun q0 => String.eqb (q_id q0) questionId
                                 && (MAX_ACTIVE_OPTIONS <=? countActiveOptions (q_options q0)))
                      (questions p) = true) as ->; [|reflexivity].
      apply existsb_exists. exists q. split; [now apply nth_error_In in Hq|].
      now rewrite Hid, String.eqb_refl, Hcap.
    + intro Hlt. apply Nat.leb_gt in Hlt.
      change 5 with MAX_ACTIVE_OPTIONS in Hlt. rewrite Hlt. cbn [negb].
      split; [reflexivity | lia].
  - intro Hnone. rewrite Herr.
    assert (existsb (fun q0 => String.eqb (q_id q0) questionId
                               && (MAX_ACTIVE_OPTIONS <=? countActiveOptions (q_options q0)))
                    (questions p) = false) as ->; [|reflexivity].
    apply not_true_is_false. intro Hex. apply existsb_exists in Hex as [q' [Hin Hq']].
    apply andb_true_iff in Hq' as [Hid' Hcap]. apply String.eqb_eq in Hid'.
    apply Nat.leb_le in Hcap. specialize (Hnone q' Hin Hid').
    unfold MAX_ACTIVE_OPTIONS in Hcap. lia.
Qed.

Lemma add_option_appends_witness :
  (exists q' newOption,
      nth_error (questions (fst (handleAddOption counterIds "q1" cappedPage 0))) 0 = Some q'
      /\ q_options q' = q_options cappedQuestion ++ [newOption]
      /\ List.length (q_options q') = 7
      /\ o_ativo newOption = false
      /\ error (fst (handleAddOption counterIds "q1" cappedPage 0)) = Some LIMIT_ON_ADD)
  /\ error (fst (handleAddOption counterIds "qb" editedPage 0)) = error editedPage.
Proof.
  split.
  - destruct (@add_option_appends counterIds "q1" cappedPage 0 0 cappedQuestion
                                  eq_refl eq_refl)
      as [(q' & o & Hnth & _ & _ & _ & Hopts & Hlen & _ & Hcap & _) _].
    exists q', o. split; [exact Hnth|]. split; [exact Hopts|]. split; [exact Hlen|].
    destruct Hcap as (Hoff & _ & Herr); [vm_compute; lia|]. now split.
  - refine (proj2 (@add_option_appends counterIds "qb" editedPage 0 1 _ eq_refl eq_refl) _).
    intros q' Hin Hid. vm_compute in Hin.
    destruct Hin as [<-|[<-|[]]]; vm_compute; lia.
Defined.

(** C4. [updateOption] with [{ ativo: false }] is never refused. In the
    page it returns no warning is raised, the questions keep their
    identifiers, texts and orders, the options of an addressed question
    are the former options with every option of the given identifier made
    inactive (identifier and text kept), the options of the other
    questions are as before; so in an addressed question every option
    with the given identifier is inactive. With [{ ativo: true }], when the
    addressed question (every addressed question, there being at least
    one) has the target option inactive and five or more active options,
    the change is refused: the questions, hence every option and every
    active flag, and every cell but the error are as before, and the
    warning [LIMIT_ON_TOGGLE] is the page's error. *)
Theorem set_option_active (questionId optionId : string) (p : Page) :
  (error (updateOption questionId optionId (ativoOfOption false) p) = error p
   /\ map (fun q => (q_id q, q_texto q, q_ordem q, q_options q))
          (questions (updateOption questionId optionId (ativoOfOption false) p))
      = map (fun q =>
               (q_id q, q_texto q, q_ordem q,
                if String.eqb (q_id q) questionId
                then map (fun o =>
                            if String.eqb (o_id o) optionId
                            then mkOption (o_id o) (o_texto o) false
                            else o)
                         (q_options q)
                else q_options q))
            (questions p)
   /\ (forall q o,
          In q (questions (updateOption questionId optionId (ativoOfOption false) p)) ->
          q_id q = questionId ->
          In o (q_options q) -> o_id o = optionId ->
          o_ativo o = false))
  /\ ((exists q, In q (questions p) /\ q_id q = questionId) ->
      (forall q, In q (questions p) -> q_id q = questionId ->
                 exists target,
                   JS.find (fun o => String.eqb (o_id o) optionId) (q_options q)
                   = Some target
                   /\ o_ativo target = false
                   /\ 5 <= countActiveOptions (q_options q)) ->
      updateOption questionId optionId (ativoOfOption true) p
      = setError (Some LIMIT_ON_TOGGLE) p
      /\ questions (updateOption questionId optionId (ativoOfOption true) p) = questions p
      /\ map (fun q => map o_ativo (q_options q))
             (questions (updateOption questionId optionId (ativoOfOption true) p))
         = map (fun q => map o_ativo (q_options q)) (questions p)
      /\ error (updateOption questionId optionId (ativoOfOption true) p)
         = Some LIMIT_ON_TOGGLE).
Proof.
  split.
  - unfold updateOption.
    rewrite (mapS_pure (updateOption_question questionId optionId (ativoOfOption false))
               (fun q =>
                  if String.eqb (q_id q) questionId
                  then withOptions q
                         (map (fun o =>
                                 if String.eqb (o_id o) optionId
                                 then mkOption (o_id o) (o_texto o) false
                                 else o)
                              (q_options q))
                  else q)).
    + cbn [error questions setError setQuestions]. split; [reflexivity|]. split.
      * rewrite map_map. apply map_ext. intro q.
        destruct (String.eqb (q_id q) questionId); reflexivity.
      * intros q' o Hq' Hid Ho Hoid. apply in_map_iff in Hq' as [q [Heq Hq]].
        destruct (String.eqb_spec (q_id q) questionId) as [E|E].
        -- subst q'. cbn [withOptions q_options] in Ho.
           apply in_map_iff in Ho as [o0 [Heq Ho0]].
           destruct (String.eqb_spec (o_id o0) optionId) as [E0|E0].
           ++ now subst o.
           ++ subst o. contradiction.
        -- subst q'. contradiction.
    + intros q err _. unfold updateOption_question.
      destruct (String.eqb (q_id q) questionId); cbn [negb]; [|reflexivity].
      destruct (JS.find _ (q_options q)) as [target|] eqn:Hfind; cbn [ou_ativo ativoOfOption andb].
      * reflexivity.
      * apply find_absent in Hfind.
        pose proof (touch_absent optionId (ativoOfOption false) (q_options q) Hfind) as Hsame.
        cbv beta in Hsame. unfold spreadOption in Hsame.
        cbn [ou_id ou_texto ou_ativo ativoOfOption or_default] in Hsame.
        rewrite Hsame. now rewrite withOptions_same.
  - intros [q [Hin Hid]] Hall. unfold updateOption.
    rewrite updateOption_all_refused by exact Hall.
    assert (existsb (fun q0 => String.eqb (q_id q0) questionId) (questions p) = true) as ->.
    { apply existsb_exists. exists q. split; [exact Hin|]. now rewrite Hid, String.eqb_refl. }
    cbn [error questions setError setQuestions].
    split; [now rewrite setQuestions_same|]. repeat split.
Qed.

Lemma set_option_active_witness :
  questions (updateOption "q1" "o6" (ativoOfOption true) cappedPage) = questions cappedPage
  /\ error (updateOption "q1" "o6" (ativoOfOption true) cappedPage)
     = Some LIMIT_ON_TOGGLE
  /\ (forall q o,
         In q (questions (updateOption "q1" "o1" (ativoOfOption false) cappedPage)) ->
         q_id q = "q1"%string -> In o (q_options q) -> o_id o = "o1"%string ->
         o_ativo o = false).
Proof.
  split; [|split].
  - refine (proj1 (proj2 (proj2 (set_option_active "q1" "o6" cappedPage) _ _))).
    + exists cappedQuestion. split; [now left | reflexivity].
    + intros q [<-|[]] _. eexists. split; [reflexivity|]. split; [reflexivity|].
      vm_compute. lia.
  - refine (proj2 (proj2 (proj2 (proj2 (set_option_active "q1" "o6" cappedPage) _ _)))).
    + exists cappedQuestion. split; [now left | reflexivity].
    + intros q [<-|[]] _. eexists. split; [reflexivity|]. split; [reflexivity|].
      vm_compute. lia.
  - exact (proj2 (proj2 (proj1 (set_option_active "q1" "o1" cappedPage)))).
Defined.

(** C10. Frame and unknown identifiers. [handleAddOption],
    [handleRemoveOption], [updateOption] and [updateQuestion] leave every
    question whose identifier is not the given one in place and unchanged;
    [handleRemoveQuestion] keeps all of them, in order. When no question has
    the given identifier each of the five handlers returns the page as it
    was (and [handleAddOption] draws no identifier); so does [updateOption]
    when no addressed question holds an option with the given option
    identifier. *)
Theorem handlers_frame (uuid : nat -> string) (questionId : string) (p : Page) :
  (forall i q,
      nth_error (questions p) i = Some q -> q_id q <> questionId ->
      (forall n, nth_error (questions (fst (handleAddOption uuid questionId p n))) i = Some q)
      /\ (forall optionId,
             nth_error (questions (handleRemoveOption questionId optionId p)) i = Some q)
      /\ (forall optionId updates,
             nth_error (questions (updateOption questionId optionId updates p)) i = Some q)
      /\ (forall updates,
             nth_error (questions (updateQuestion questionId updates p)) i = Some q))
  /\ filter (fun q => negb (String.eqb (q_id q) questionId))
            (questions (handleRemoveQuestion questionId p))
     = filter (fun q => negb (String.eqb (q_id q) questionId)) (questions p)
  /\ ((forall q, In q (questions p) -> q_id q <> questionId) ->
      (forall n, handleAddOption uuid questionId p n = (p, n))
      /\ (forall optionId, handleRemoveOption questionId optionId p = p)
      /\ (forall optionId updates, updateOption questionId optionId updates p = p)
      /\ (forall updates, updateQuestion questionId updates p = p)
      /\ handleRemoveQuestion questionId p = p)
  /\ (forall optionId updates,
         (forall q, In q (questions p) -> q_id q = questionId ->
                    ~ In optionId (map o_id (q_options q))) ->
         updateOption questionId optionId updates p = p).
Proof.
  split; [|split; [|split]].
  - intros i q Hq Hid. apply String.eqb_neq in Hid. repeat split.
    + intro n. unfold handleAddOption.
      destruct (mapS_nth (handleAddOption_question uuid questionId) (questions p)
                         (error p, n) i Hq) as [s' Hnth].
      destruct (JS.mapS _ (questions p) (error p, n)) as [qs [err n1]].
      cbn [fst questions setError setQuestions] in *. rewrite Hnth.
      unfold handleAddOption_question. now rewrite Hid.
    + intro optionId. unfold handleRemoveOption. cbn [questions setQuestions].
      rewrite nth_error_map, Hq. cbn [option_map]. now rewrite Hid.
    + intros optionId updates. unfold updateOption.
      destruct (mapS_nth (updateOption_question questionId optionId updates) (questions p)
                         (error p) i Hq) as [s' Hnth].
      destruct (JS.mapS _ (questions p) (error p)) as [qs err].
      cbn [fst questions setError setQuestions] in *. rewrite Hnth.
      unfold updateOption_question. now rewrite Hid.
    + intro updates. unfold updateQuestion. cbn [questions setQuestions].
      rewrite nth_error_map, Hq. cbn [option_map]. now rewrite Hid.
  - unfold handleRemoveQuestion. cbn [questions setQuestions].
    destruct (filter _ (questions p)) as [|q qs] eqn:Hf.
    + now rewrite Hf.
    + rewrite <- Hf. clear Hf. induction (questions p) as [|x xs IH]; [reflexivity|].
      cbn [filter]. destruct (negb (String.eqb (q_id x) questionId)) eqn:Hx.
      * cbn [filter]. rewrite Hx. now rewrite IH.
      * exact IH.
  - intro Hnone.
    assert (forall q, In q (questions p) -> String.eqb (q_id q) questionId = false) as Hoff.
    { intros q Hin. apply String.eqb_neq. now apply Hnone. }
    repeat split.
    + intro n. unfold handleAddOption. rewrite mapS_fixed.
      * now rewrite setQuestions_same, setError_same.
      * intros q s' Hin. unfold handleAddOption_question. now rewrite (Hoff q Hin).
    + intro optionId. unfold handleRemoveOption.
      rewrite (map_ext_in _ (fun q => q)), map_id; [apply setQuestions_same|].
      intros q Hin. now rewrite (Hoff q Hin).
    + intros optionId updates. unfold updateOption. rewrite mapS_fixed.
      * now rewrite setQuestions_same, setError_same.
      * intros q s' Hin. unfold updateOption_question. now rewrite (Hoff q Hin).
    + intro updates. unfold updateQuestion.
      rewrite (map_ext_in _ (fun q => q)), map_id; [apply setQuestions_same|].
      intros q Hin. now rewrite (Hoff q Hin).
    + unfold handleRemoveQuestion. cbn zeta.
      assert (filter (fun q => negb (String.eqb (q_id q) questionId)) (questions p)
              = questions p) as ->.
      { apply forallb_filter_id. apply forallb_forall. intros q Hin.
        now rewrite (Hoff q Hin). }
      destruct (questions p) eqn:E; rewrite <- E; apply setQuestions_same.
  - intros optionId updates Hnone. unfold updateOption. rewrite mapS_fixed.
    + now rewrite setQuestions_same, setError_same.
    + intros q s' Hin. unfold updateOption_question.
      destruct (String.eqb_spec (q_id q) questionId) as [E|E]; cbn [negb]; [|reflexivity].
      destruct (JS.find _ (q_options q)) as [target|] eqn:Hfind; [|reflexivity].
      elim (Hnone q Hin E). unfold JS.find in Hfind.
      apply find_some in Hfind as [Hin' Heq]. apply String.eqb_eq in Heq.
      rewrite <- Heq. now apply in_map.
Qed.

Lemma handlers_frame_witness :
  nth_error (questions (fst (handleAddOption counterIds "qa" editedPage 0))) 1
  = nth_error (questions editedPage) 1
  /\ updateQuestion "zz" (textoOfQuestion "x") editedPage = editedPage
  /\ updateOption "qa" "b1" (ativoOfOption false) editedPage = editedPage.
Proof.
  pose proof (handlers_frame counterIds "qa" editedPage) as [Hframe [_ [_ Hopt]]].
  pose proof (handlers_frame counterIds "zz" editedPage) as [_ [_ [Hnone _]]].
  split; [|split].
  - refine (proj1 (Hframe 1 _ eq_refl _) 0). discriminate.
  - refine (proj1 (proj2 (proj2 (proj2 (Hnone _)))) _).
    intros q [<-|[<-|[]]]; discriminate.
  - apply Hopt. intros q [<-|[<-|[]]] Hid Hin; [|discriminate Hid].
    vm_compute in Hin. destruct Hin as [H|[H|[]]]; discriminate H.
Defined.

(** ** The submission pipeline *)

Lemma or_else_truthy (a b : string) : b <> EmptyString -> JS.or_else a b <> EmptyString.
Proof.
  intro Hb. unfold JS.or_else. destruct (JS.truthy a) eqn:Ha; [|exact Hb].
  now apply truthy_true_iff.
Qed.

(** [parseApiError] always gives a message to display. *)
Lemma parseApiError_message (e : Thrown) : parseApiError e <> EmptyString.
Proof.
  destruct e as [response code|message|]; simpl.
  - destruct (statusIs _ 401); [apply or_else_truthy; discriminate|].
    destruct (statusIs _ 403); [apply or_else_truthy; discriminate|].
    destruct (JS.truthy (messageOf _)) eqn:Hm.
    + destruct response as [[status [[message [errors|]]|]]|]; simpl in *;
        try discriminate; try (now apply truthy_true_iff).
      destruct message; [discriminate|]. discriminate.
    + destruct response; [discriminate|].
      destruct code as [code|]; [|discriminate].
      repeat match goal with
             | |- context [match ?x with _ => _ end] => destruct x
             end; discriminate.
  - apply or_else_truthy. discriminate.
  - discriminate.
Qed.

Section PipelineLogic.

Variable Backend : Type.
Variable server : Call -> Backend -> Reply * Backend.

Lemma Run_ret {A : Type} (a : A) (w : World Backend)
  (Q : Completion A -> list (Call * Reply) -> Prop) :
  Q (Normal a) [] -> Run (ret a) w Q.
Proof.
  intro H. exists []. simpl. now rewrite app_nil_r.
Qed.

Lemma Run_throw {A : Type} (e : Thrown) (w : World Backend)
  (Q : Completion A -> list (Call * Reply) -> Prop) :
  Q (Abrupt e) [] -> Run (throw e) w Q.
Proof.
  intro H. exists []. simpl. now rewrite app_nil_r.
Qed.

Lemma Run_await (c : Call) (w : World Backend)
  (Q : Completion Z -> list (Call * Reply) -> Prop) :
  (forall id, Q (Normal id) [(c, Resolved id)]) ->
  (forall e, Q (Abrupt e) [(c, Rejected e)]) ->
  Run (await server c) w Q.
Proof.
  intros Hok Hko. unfold Run, await.
  destruct (server c (backend w)) as [[id|e] b]; eexists; simpl; eauto.
Qed.

Lemma Run_bind {A B : Type} (m : Api Backend A) (k : A -> Api Backend B)
  (w : World Backend)
  (Q1 : Completion A -> list (Call * Reply) -> Prop)
  (Q : Completion B -> list (Call * Reply) -> Prop) :
  Run m w Q1 ->
  (forall a evs1 w1, Q1 (Normal a) evs1 ->
                     Run (k a) w1 (fun r evs2 => Q r (evs1 ++ evs2))) ->
  (forall e evs1, Q1 (Abrupt e) evs1 -> Q (Abrupt e) evs1) ->
  Run (bind m k) w Q.
Proof.
  intros (evs1 & Ht & Hn & HQ1) Hk He. unfold Run, bind.
  destruct (m w) as [[a|e] w1]; simpl in *.
  - destruct (Hk a evs1 w1 HQ1) as (evs2 & Ht2 & Hn2 & HQ).
    exists (evs1 ++ evs2). rewrite Ht2, Ht, Hn2, Hn, app_assoc. auto.
  - exists evs1. auto.
Qed.

End PipelineLogic.

Lemma stoppedBy_cons (c : Call) (id : Z) (evs : list (Call * Reply)) (e : Thrown) :
  stoppedBy evs e -> stoppedBy ((c, Resolved id) :: evs) e.
Proof.
  intros (pre & c' & -> & Hpre). exists ((c, Resolved id) :: pre), c'.
  split; [reflexivity|]. now constructor.
Qed.

Lemma stoppedBy_app (evs1 evs2 : list (Call * Reply)) (e : Thrown) :
  allResolved evs1 -> stoppedBy evs2 e -> stoppedBy (evs1 ++ evs2) e.
Proof.
  intros H1 (pre & c & -> & Hpre). exists (evs1 ++ pre), c.
  split; [now rewrite app_assoc|]. apply Forall_app. now split.
Qed.

Lemma stoppedBy_single (c : Call) (e : Thrown) : stoppedBy [(c, Rejected e)] e.
Proof.
  exists [], c. split; [reflexivity | constructor].
Qed.

(** In a run stopped by a rejection, the rejected call is the last one. *)
Lemma stoppedBy_last (evs pre post : list (Call * Reply)) (c : Call) (e e' : Thrown) :
  stoppedBy evs e ->
  evs = pre ++ (c, Rejected e') :: post ->
  post = [] /\ e' = e.
Proof.
  intros (pre0 & c0 & -> & Hpre0). revert pre.
  induction Hpre0 as [|[c1 r1] pre0 Hr _ IH]; intros pre Heq.
  - destruct pre as [|x pre]; simpl in Heq.
    + injection Heq as _ He Hpost. now subst.
    + injection Heq as _ Heq. now destruct pre.
  - destruct pre as [|x pre]; simpl in Heq.
    + injection Heq as _ Hr' _. subst r1. discriminate Hr.
    + injection Heq as _ Heq. now apply IH with (pre := pre).
Qed.

Lemma allResolved_not_rejected (evs pre post : list (Call * Reply)) (c : Call) (e : Thrown) :
  allResolved evs -> evs <> pre ++ (c, Rejected e) :: post.
Proof.
  intros H Heq. subst evs. apply Forall_app in H as [_ H].
  inversion H as [|? ? Hr _]. discriminate Hr.
Qed.

Section PipelineFacts.

Variable trim : string -> string.
Variable toISOString : string -> Completion string.
Variable Backend : Type.
Variable server : Call -> Backend -> Reply * Backend.

Lemma options_exchange_resolved (qid : Z) (opts : list DraftOption) (oids : list Z) :
  allResolved (map (fun oa => (optionCall trim qid (fst oa), Resolved (snd oa)))
                   (combine opts oids)).
Proof.
  apply Forall_map. apply Forall_forall. reflexivity.
Qed.

Lemma questionExchange_resolved (sid : Z) (qa : DraftQuestion * (Z * list Z)) :
  allResolved (questionExchange trim sid qa).
Proof.
  destruct qa as [q [qid oids]]. constructor; [reflexivity|].
  apply options_exchange_resolved.
Qed.

Lemma exchange_resolved (p : Page) (expiry : option string) (sid : Z)
  (answers : list (Z * list Z)) :
  allResolved (exchange trim p expiry sid answers).
Proof.
  constructor; [reflexivity|].
  induction (combine (questions p) answers) as [|qa rest IH]; [constructor|].
  simpl. apply Forall_app. split; [apply questionExchange_resolved | exact IH].
Qed.

(** The loop over the options of a question. *)
Lemma options_run (qid : Z) (opts : list DraftOption) (w : World Backend) :
  Run (forOf (submitOption trim server qid) opts) w (optionsPost trim qid opts).
Proof.
  revert w. induction opts as [|o opts IH]; intro w; cbn [forOf].
  - apply Run_ret. split; [constructor|]. exists []. split; reflexivity.
  - unfold submitOption at 1, optionsPost. cbn [filter].
    destruct (JS.truthy (trim (o_texto o))); cbn [negb].
    + apply Run_bind with (Q1 := fun r evs =>
        match r with
        | Normal _ => exists id, evs = [(optionCall trim qid o, Resolved id)]
        | Abrupt e => evs = [(optionCall trim qid o, Rejected e)]
        end).
      * apply Run_bind with (Q1 := fun r evs =>
          match r with
          | Normal id => evs = [(optionCall trim qid o, Resolved id)]
          | Abrupt e => evs = [(optionCall trim qid o, Rejected e)]
          end).
        -- apply Run_await; reflexivity.
        -- intros id evs1 w1 ->. apply Run_ret. exists id. now rewrite app_nil_r.
        -- intros e evs1 ->. reflexivity.
      * intros _ evs1 w1 [id ->]. destruct (IH w1) as (evs2 & Ht & Hn & Hc & Hpost).
        exists evs2. split; [exact Ht|]. split; [exact Hn|]. split.
        -- constructor; [reflexivity | exact Hc].
        -- destruct (fst (forOf _ opts w1)).
           ++ destruct Hpost as (oids & Hlen & ->). exists (id :: oids).
              split; [simpl; now rewrite Hlen | reflexivity].
           ++ now apply stoppedBy_cons.
      * intros e evs1 ->. split; [now repeat constructor | apply stoppedBy_single].
    + apply Run_bind with (Q1 := fun r evs => evs = [] /\ exists u, r = Normal u).
      * apply Run_ret. split; [reflexivity | now exists tt].
      * intros _ evs1 w1 [-> _]. apply IH.
      * intros e evs1 [_ [u Hu]]. discriminate Hu.
Qed.

(** The loop over the questions. *)
Lemma questions_run (sid : Z) (qs : list DraftQuestion) (w : World Backend) :
  Run (forOf (submitQuestion trim server sid) qs) w (questionsPost trim sid qs).
Proof.
  revert w. induction qs as [|q qs IH]; intro w; cbn [forOf].
  - apply Run_ret. split; [constructor|]. exists []. split; reflexivity.
  - apply Run_bind with (Q1 := fun r evs =>
      onlyCreates evs
      /\ match r with
         | Normal _ => exists qid oids,
             List.length oids = List.length (sendable trim q)
             /\ evs = questionExchange trim sid (q, (qid, oids))
         | Abrupt e => stoppedBy evs e
         end).
    + unfold submitQuestion.
      apply Run_bind with (Q1 := fun r evs =>
        match r with
        | Normal id => evs = [(questionCall trim sid q, Resolved id)]
        | Abrupt e => evs = [(questionCall trim sid q, Rejected e)]
        end).
      * apply Run_await; reflexivity.
      * intros qid evs1 w1 ->.
        destruct (options_run qid (q_options q) w1) as (evs2 & Ht & Hn & Hc & Hpost).
        exists evs2. split; [exact Ht|]. split; [exact Hn|]. split.
        -- constructor; [reflexivity | exact Hc].
        -- destruct (fst (forOf _ (q_options q) w1)).
           ++ destruct Hpost as (oids & Hlen & ->). exists qid, oids.
              split; [exact Hlen | reflexivity].
           ++ now apply stoppedBy_cons.
      * intros e evs1 ->. split; [now repeat constructor | apply stoppedBy_single].
    + intros _ evs1 w1 [Hc1 (qid & oids & Hlen & ->)].
      destruct (IH w1) as (evs2 & Ht & Hn & Hc & Hpost).
      exists evs2. split; [exact Ht|]. split; [exact Hn|]. split.
      * apply Forall_app. now split.
      * destruct (fst (forOf _ qs w1)).
        -- destruct Hpost as (answers & Hlens & ->). exists ((qid, oids) :: answers).
           split; [simpl; now rewrite Hlen, Hlens | reflexivity].
        -- apply stoppedBy_app; [apply questionExchange_resolved | exact Hpost].
    + intros e evs1 [Hc Hstop]. now split.
Qed.

(** The [try] block. *)
Lemma submitDraft_run (p : Page) (w : World Backend) :
  Run (submitDraft trim toISOString server p) w (submitPost trim toISOString p).
Proof.
  unfold submitDraft.
  apply Run_bind with (Q1 := fun r evs =>
    evs = []
    /\ match r with
       | Normal expiry => expiryOf toISOString p = Some expiry
       | Abrupt _ => expiryOf toISOString p = None
       end).
  - unfold dataValidadeField, expiryOf. destruct (JS.truthy (dataValidade p)).
    + destruct (toISOString (dataValidade p)); [apply Run_ret | apply Run_throw]; now split.
    + apply Run_ret. now split.
  - intros expiry evs0 w0 [-> Hexp]. cbn [app].
    apply Run_bind with (Q1 := fun r evs =>
      match r with
      | Normal sid => evs = [(SurveyCreate (surveyPayload trim p expiry), Resolved sid)]
      | Abrupt e => evs = [(SurveyCreate (surveyPayload trim p expiry), Rejected e)]
      end).
    + apply Run_await; reflexivity.
    + intros sid evs1 w1 ->.
      apply Run_bind with (Q1 := questionsPost trim sid (questions p)).
      * apply questions_run.
      * intros _ evs2 w2 [Hc (answers & Hlens & ->)]. apply Run_ret.
        rewrite app_nil_r. split; [constructor; [reflexivity | exact Hc]|].
        exists expiry, answers. repeat split; assumption.
      * intros e evs2 [Hc Hstop]. split; [constructor; [reflexivity | exact Hc]|].
        right. now apply stoppedBy_cons.
    + intros e evs1 ->. split; [now repeat constructor|]. right. apply stoppedBy_single.
  - intros e evs0 [-> Hexp]. split; [constructor|]. left. now split.
Qed.

Lemma issued_app (w w' : World Backend) (evs : list (Call * Reply)) :
  trace w' = trace w ++ evs -> issued w w' = evs.
Proof.
  intro H. unfold issued. rewrite H, skipn_app, skipn_all, Nat.sub_diag. reflexivity.
Qed.

End PipelineFacts.

Section Submit.

Variable trim : string -> string.
Variable toISOString : string -> Completion string.
Variable Backend : Type.
Variable server : Call -> Backend -> Reply * Backend.

Lemma texts_present (qs : list DraftQuestion) :
  Forall (fun q => trim (q_texto q) <> EmptyString) qs ->
  forallb (fun question => JS.truthy (trim (q_texto question))) qs = true.
Proof.
  intro H. apply forallb_forall. rewrite Forall_forall in H.
  intros q Hq. apply truthy_true_iff. now apply H.
Qed.

Lemma text_missing (qs : list DraftQuestion) :
  Exists (fun q => trim (q_texto q) = EmptyString) qs ->
  forallb (fun question => JS.truthy (trim (q_texto question))) qs = false.
Proof.
  intro H. apply Exists_exists in H as [q [Hin Hq]].
  apply not_true_is_false. intro Hall. rewrite forallb_forall in Hall.
  specialize (Hall q Hin). rewrite Hq in Hall. discriminate.
Qed.

Lemma within_cap (qs : list DraftQuestion) :
  Forall (fun q => countActiveOptions (q_options q) <= 5) qs ->
  existsb (fun question => MAX_ACTIVE_OPTIONS <? countActiveOptions (q_options question)) qs
  = false.
Proof.
  intro H. apply not_true_is_false. intro Hex.
  apply existsb_exists in Hex as [q [Hin Hq]]. rewrite Forall_forall in H.
  specialize (H q Hin). apply Nat.ltb_lt in Hq. unfold MAX_ACTIVE_OPTIONS in Hq. lia.
Qed.

Lemma over_cap (qs : list DraftQuestion) :
  Exists (fun q => 5 < countActiveOptions (q_options q)) qs ->
  existsb (fun question => MAX_ACTIVE_OPTIONS <? countActiveOptions (q_options question)) qs
  = true.
Proof.
  intro H. apply Exists_exists in H as [q [Hin Hq]].
  apply existsb_exists. exists q. split; [exact Hin|]. now apply Nat.ltb_lt.
Qed.

(** On a draft that passes validation [handleSubmit] runs the [try] block. *)
Lemma handleSubmit_passes (p : Page) (w : World Backend) :
  passesValidation trim p ->
  handleSubmit trim toISOString server p w
  = match submitDraft trim toISOString server p w with
    | (Normal id, w1) =>
        (setIsSaving false
           (setSuccess (Some CREATED) (setIsSaving true (setSuccess None (setError None p)))),
         navigate (append "/surveys/" (JS.string_of_Z id)) w1)
    | (Abrupt err, w1) =>
        (setIsSaving false
           (setError (Some (parseApiError err))
                     (setIsSaving true (setSuccess None (setError None p)))),
         w1)
    end.
Proof.
  intros (Ht & Hq & Hc). unfold handleSubmit.
  apply truthy_true_iff in Ht. rewrite Ht, (texts_present Hq), (within_cap Hc).
  reflexivity.
Qed.

(** What a submission leaves behind, in every case. *)
Lemma handleSubmit_run (p : Page) (w : World Backend) :
  exists evs,
    trace (snd (handleSubmit trim toISOString server p w)) = trace w ++ evs
    /\ onlyCreates evs
    /\ (forall e, stoppedBy evs e ->
                  error (fst (handleSubmit trim toISOString server p w))
                  = Some (parseApiError e)
                  /\ success (fst (handleSubmit trim toISOString server p w)) = None
                  /\ isSaving (fst (handleSubmit trim toISOString server p w)) = false
                  /\ navigations (snd (handleSubmit trim toISOString server p w))
                     = navigations w)
    /\ (allResolved evs \/ exists e, stoppedBy evs e).
Proof.
  unfold handleSubmit.
  destruct (negb (JS.truthy (trim (titulo p)))).
  { exists []. cbn [fst snd]. rewrite app_nil_r.
    split; [reflexivity|]. split; [constructor|]. split; [|left; constructor].
    intros e (pre & c & Heq & _). now destruct pre. }
  destruct (negb (forallb _ (questions p))).
  { exists []. cbn [fst snd]. rewrite app_nil_r.
    split; [reflexivity|]. split; [constructor|]. split; [|left; constructor].
    intros e (pre & c & Heq & _). now destruct pre. }
  destruct (existsb _ (questions p)).
  { exists []. cbn [fst snd]. rewrite app_nil_r.
    split; [reflexivity|]. split; [constructor|]. split; [|left; constructor].
    intros e (pre & c & Heq & _). now destruct pre. }
  destruct (submitDraft_run trim toISOString server p w) as (evs & Ht & Hn & Hc & Hpost).
  destruct (submitDraft trim toISOString server p w) as [[sid|err] w1];
    cbn [fst snd] in *; exists evs.
  - destruct Hpost as (expiry & answers & _ & _ & ->).
    split; [exact Ht|]. split; [exact Hc|]. split.
    + intros e (pre & c & Heq & _).
      elim (allResolved_not_rejected pre [] c e
              (exchange_resolved trim p expiry sid answers) Heq).
    + left. apply exchange_resolved.
  - split; [exact Ht|]. split; [exact Hc|].
    destruct Hpost as [[-> _]|Hstop].
    + split; [|left; constructor]. intros e (pre & c & Heq & _). now destruct pre.
    + split; [|right; now exists err]. intros e He.
      destruct Hstop as (pre & c & -> & Hpre).
      destruct (@stoppedBy_last _ pre [] c e err He eq_refl) as [_ ->].
      repeat split. exact Hn.
Qed.

End Submit.

Section SubmitClaims.

Variable trim : string -> string.
Variable toISOString : string -> Completion string.
Variable Backend : Type.
Variable server : Call -> Backend -> Reply * Backend.

Local Abbreviation submit := (handleSubmit trim toISOString server).

(** [handleSubmit] writes only the [error], [success] and [isSaving]
    cells. *)
Lemma handleSubmit_draft (p : Page) (w : World Backend) :
  titulo (fst (submit p w)) = titulo p
  /\ descricao (fst (submit p w)) = descricao p
  /\ ativo (fst (submit p w)) = ativo p
  /\ dataValidade (fst (submit p w)) = dataValidade p
  /\ questions (fst (submit p w)) = questions p
  /\ selectedTemplate (fst (submit p w)) = selectedTemplate p.
Proof.
  unfold handleSubmit.
  destruct (negb (JS.truthy (trim (titulo p)))); [now repeat split|].
  destruct (negb (forallb _ (questions p))); [now repeat split|].
  destruct (existsb _ (questions p)); [now repeat split|].
  destruct (submitDraft trim toISOString server p w) as [[sid|err] w1]; now repeat split.
Qed.

(** C3. Pre-submit validation. The checks run in the order title, question
    texts, active-option cap, and the first one that fails decides: the
    page gets that check's message as its error (and no success message),
    and the world is left as it was, so no call is issued. *)
Theorem validation_blocks_submission (p : Page) (w : World Backend) :
  (trim (titulo p) = EmptyString ->
   submit p w = (setError (Some TITLE_REQUIRED) (setSuccess None p), w))
  /\ (trim (titulo p) <> EmptyString ->
      Exists (fun q => trim (q_texto q) = EmptyString) (questions p) ->
      submit p w = (setError (Some TEXT_REQUIRED) (setSuccess None p), w))
  /\ (trim (titulo p) <> EmptyString ->
      Forall (fun q => trim (q_texto q) <> EmptyString) (questions p) ->
      Exists (fun q => 5 < countActiveOptions (q_options q)) (questions p) ->
      submit p w = (setError (Some TOO_MANY_ACTIVE) (setSuccess None p), w)).
Proof.
  unfold handleSubmit. repeat split.
  - intro Ht. now rewrite Ht.
  - intros Ht Hq. apply truthy_true_iff in Ht. now rewrite Ht, (text_missing trim Hq).
  - intros Ht Hq Hc. apply truthy_true_iff in Ht.
    now rewrite Ht, (texts_present trim Hq), (over_cap Hc).
Qed.

(** C2. Call order and counts. For a draft that passes validation, whose
    expiry is empty or converts, and a submission [p', w'] in which no call
    is rejected: the calls issued are one survey-create, then for each
    question in draft order one question-create carrying the identifier
    returned for the survey, followed by one option-create, carrying the
    identifier returned for that question, for each of its options in draft
    order whose trimmed text is non-empty, the others being skipped; and
    the success message is set. In particular two questions of three
    options each, all with non-empty trimmed text, give the nine calls
    survey, question 1, its three options, question 2, its three options. *)
Theorem submission_calls (p p' : Page) (w w' : World Backend) :
  passesValidation trim p ->
  expiryOf toISOString p <> None ->
  submit p w = (p', w') ->
  allResolved (issued w w') ->
  (exists expiry sid answers,
      expiryOf toISOString p = Some expiry
      /\ map (fun a => List.length (snd a)) answers
         = map (fun q => List.length (sendable trim q)) (questions p)
      /\ issued w w' = exchange trim p expiry sid answers
      /\ success p' = Some CREATED)
  /\ (forall q1 q2 a1 a2 a3 b1 b2 b3,
         questions p = [q1; q2] ->
         q_options q1 = [a1; a2; a3] ->
         q_options q2 = [b1; b2; b3] ->
         Forall (fun o => trim (o_texto o) <> EmptyString) [a1; a2; a3; b1; b2; b3] ->
         exists expiry sid qid1 qid2,
           map fst (issued w w')
           = [SurveyCreate (surveyPayload trim p expiry);
              questionCall trim sid q1;
              optionCall trim qid1 a1; optionCall trim qid1 a2; optionCall trim qid1 a3;
              questionCall trim sid q2;
              optionCall trim qid2 b1; optionCall trim qid2 b2; optionCall trim qid2 b3]).
Proof.
  intros Hvalid Hexp Hrun Hres.
  assert (exists expiry sid answers,
             expiryOf toISOString p = Some expiry
             /\ map (fun a => List.length (snd a)) answers
                = map (fun q => List.length (sendable trim q)) (questions p)
             /\ issued w w' = exchange trim p expiry sid answers
             /\ success p' = Some CREATED) as Hgen.
  { rewrite (handleSubmit_passes toISOString server w Hvalid) in Hrun.
    destruct (submitDraft_run trim toISOString server p w) as (evs & Ht & _ & _ & Hpost).
    destruct (submitDraft trim toISOString server p w) as [[sid|err] w1];
      cbn [fst snd] in *; injection Hrun as <- <-.
    - destruct Hpost as (expiry & answers & He & Hlens & ->).
      exists expiry, sid, answers. repeat split; try assumption.
      now apply issued_app.
    - rewrite (@issued_app _ w w1 evs Ht) in Hres. destruct Hpost as [[_ Hnone]|Hstop].
      + now elim Hexp.
      + destruct Hstop as (pre & c & Heq & _).
        elim (allResolved_not_rejected pre [] c err Hres Heq). }
  split; [exact Hgen|].
  intros q1 q2 a1 a2 a3 b1 b2 b3 Hqs Ho1 Ho2 Htexts.
  destruct Hgen as (expiry & sid & answers & _ & Hlens & Hissued & _).
  assert (sendable trim q1 = [a1; a2; a3] /\ sendable trim q2 = [b1; b2; b3]) as [Hs1 Hs2].
  { unfold sendable. rewrite Ho1, Ho2. cbn [filter].
    repeat match goal with
           | H : Forall _ (_ :: _) |- _ => inversion H; subst; clear H
           end.
    repeat match goal with
           | H : trim _ <> EmptyString |- _ => apply truthy_true_iff in H; rewrite H
           end.
    now split. }
  rewrite Hissued. unfold exchange. rewrite Hqs in *. cbn [map] in Hlens.
  rewrite Hs1, Hs2 in Hlens.
  destruct answers as [|[qid1 [|x1 [|x2 [|x3 [|? ?]]]]] [|[qid2 [|y1 [|y2 [|y3 [|? ?]]]]] [|? ?]]];
    try discriminate Hlens.
  exists expiry, sid, qid1, qid2.
  cbn [combine flat_map questionExchange]. rewrite Hs1, Hs2. reflexivity.
Qed.

(** C6. Failure of a create call. A submission [p', w'] leaves the title,
    the description, the active flag, the expiry and the question tree of
    the page as they were, only appends to the trace, and issues create
    calls only (none of the delete endpoints). When one of its calls is
    rejected with [e] that call is the last one issued, the page's error is
    the message [parseApiError e], which is not empty, no success message is
    set, the saving flag is off and no navigation happens. *)
Theorem submission_failure (p p' : Page) (w w' : World Backend) :
  submit p w = (p', w') ->
  (titulo p' = titulo p /\ descricao p' = descricao p /\ ativo p' = ativo p
   /\ dataValidade p' = dataValidade p /\ questions p' = questions p)
  /\ trace w' = trace w ++ issued w w'
  /\ onlyCreates (issued w w')
  /\ (forall pre c e post,
         issued w w' = pre ++ (c, Rejected e) :: post ->
         post = []
         /\ error p' = Some (parseApiError e)
         /\ parseApiError e <> EmptyString
         /\ success p' = None
         /\ isSaving p' = false
         /\ navigations w' = navigations w).
Proof.
  intro Hrun.
  pose proof (handleSubmit_draft p w) as (H1 & H2 & H3 & H4 & H5 & _).
  destruct (handleSubmit_run trim toISOString server p w) as (evs & Ht & Hc & Hstop & Hcase).
  rewrite Hrun in *. cbn [fst snd] in *.
  rewrite (@issued_app _ w w' evs Ht).
  split; [now repeat split|]. split; [exact Ht|]. split; [exact Hc|].
  intros pre c e post Heq. destruct Hcase as [Hres|[e0 He0]].
  - elim (allResolved_not_rejected pre post c e Hres Heq).
  - destruct (@stoppedBy_last _ pre post c e0 e He0 Heq) as [-> ->].
    destruct (Hstop e0 He0) as (He & Hs & Hsav & Hn).
    repeat split; try assumption. apply parseApiError_message.
Qed.

End SubmitClaims.

Lemma validation_blocks_submission_witness :
  handleSubmit spaceTrim plainDate (countingServer (-1)) untitledPage freshWorld
  = (setError (Some TITLE_REQUIRED) (setSuccess None untitledPage), freshWorld)
  /\ handleSubmit spaceTrim plainDate (countingServer (-1)) blankQuestionPage freshWorld
     = (setError (Some TEXT_REQUIRED) (setSuccess None blankQuestionPage), freshWorld)
  /\ handleSubmit spaceTrim plainDate (countingServer (-1)) overCapPage freshWorld
     = (setError (Some TOO_MANY_ACTIVE) (setSuccess None overCapPage), freshWorld).
Proof.
  split; [|split].
  - refine (proj1 (validation_blocks_submission spaceTrim plainDate (countingServer (-1))
                     untitledPage freshWorld) _).
    reflexivity.
  - refine (proj1 (proj2 (validation_blocks_submission spaceTrim plainDate
                            (countingServer (-1)) blankQuestionPage freshWorld)) _ _).
    + discriminate.
    + apply Exists_cons_hd. reflexivity.
  - refine (proj2 (proj2 (validation_blocks_submission spaceTrim plainDate
                            (countingServer (-1)) overCapPage freshWorld)) _ _ _).
    + discriminate.
    + repeat constructor. discriminate.
    + apply Exists_cons_hd. vm_compute. lia.
Defined.

Lemma submission_calls_witness :
  exists expiry sid qid1 qid2,
    map fst (issued freshWorld
               (snd (handleSubmit spaceTrim plainDate (countingServer (-1))
                                  twoByThree freshWorld)))
    = [SurveyCreate (surveyPayload spaceTrim twoByThree expiry);
       QuestionCreate (mkQuestionPayload "Limpeza?" 1 sid);
       OptionCreate (mkOptionPayload "Nova" true qid1);
       OptionCreate (mkOptionPayload "Bom" true qid1);
       OptionCreate (mkOptionPayload "Max" false qid1);
       QuestionCreate (mkQuestionPayload "Filas?" 2 sid);
       OptionCreate (mkOptionPayload "Nova" true qid2);
       OptionCreate (mkOptionPayload "Bom" true qid2);
       OptionCreate (mkOptionPayload "Max" true qid2)].
Proof.
  refine (proj2 (@submission_calls spaceTrim plainDate Z (countingServer (-1))
                   twoByThree _ freshWorld _ _ _ (surjective_pairing _) _)
                _ _ _ _ _ _ _ _ eq_refl eq_refl eq_refl _).
  - split; [discriminate|]. split; repeat constructor; try discriminate; vm_compute; lia.
  - discriminate.
  - vm_compute. repeat constructor.
  - repeat constructor; discriminate.
Defined.

Lemma submission_failure_witness :
  questions (fst (handleSubmit spaceTrim plainDate (countingServer 102)
                               twoByThree freshWorld))
  = questions twoByThree
  /\ error (fst (handleSubmit spaceTrim plainDate (countingServer 102)
                              twoByThree freshWorld))
     = Some "Network Error"%string
  /\ List.length (trace (snd (handleSubmit spaceTrim plainDate (countingServer 102)
                                           twoByThree freshWorld))) = 3.
Proof.
  pose proof (@submission_failure spaceTrim plainDate Z (countingServer 102)
                twoByThree _ freshWorld _ (surjective_pairing _))
    as (Hdraft & Htrace & _ & Hfail).
  split; [apply Hdraft|]. split.
  - refine (proj1 (proj2 (Hfail
        [(SurveyCreate (mkSurveyPayload "Mercados" None true None), Resolved 100);
         (QuestionCreate (mkQuestionPayload "Limpeza?" 1 100), Resolved 101)]
        (OptionCreate (mkOptionPayload "Nova" true 101))
        (JsError "Network Error") [] _))).
    vm_compute. reflexivity.
  - rewrite Htrace. vm_compute. reflexivity.
Defined.

(** * Further properties of the draft builder *)

Section Toggling.

Variable optionId : string.

Let switch (checked : bool) (option : DraftOption) : DraftOption :=
  if String.eqb (o_id option) optionId
  then spreadOption option (ativoOfOption checked)
  else option.

Lemma switch_off_on (xs : list DraftOption) :
  (forall o, In o xs -> o_id o = optionId -> o_ativo o = true) ->
  map (switch true) (map (switch false) xs) = xs.
Proof.
  intro H. rewrite map_map. rewrite <- (map_id xs) at 2. apply map_ext_in.
  intros o Ho. unfold switch. destruct (String.eqb_spec (o_id o) optionId) as [E|E].
  - specialize (H o Ho E). destruct o as [i t a]. cbn in *. subst.
    now rewrite String.eqb_refl.
  - apply String.eqb_neq in E. now rewrite E.
Qed.

Lemma switch_off_count (xs : list DraftOption) (o : DraftOption) :
  In o xs -> o_id o = optionId -> o_ativo o = true ->
  countActiveOptions (map (switch false) xs) < countActiveOptions xs.
Proof.
  intros Hin Hid Hon. induction xs as [|x xs IH]; [contradiction|].
  cbn [map]. rewrite !countActive_cons.
  pose proof (touch_count_le optionId (ativoOfOption false) xs) as Hle.
  cbv beta in Hle. specialize (Hle ltac:(discriminate)).
  destruct Hin as [->|Hin].
  - unfold switch at 1. rewrite Hid, String.eqb_refl. cbn. rewrite Hon.
    unfold switch. lia.
  - specialize (IH Hin). unfold switch at 1.
    destruct (String.eqb (o_id x) optionId); cbn; destruct (o_ativo x); lia.
Qed.

Lemma switch_off_find (xs : list DraftOption) (target : DraftOption) :
  JS.find (fun o => String.eqb (o_id o) optionId) (map (switch false) xs) = Some target ->
  o_ativo target = false /\ exists o, In o xs /\ o_id o = optionId.
Proof.
  unfold JS.find. intro H. apply find_some in H as [Hin Hid].
  apply in_map_iff in Hin as [o [Ho Hin]]. apply String.eqb_eq in Hid.
  unfold switch in Ho. destruct (String.eqb_spec (o_id o) optionId) as [E|E].
  - subst target. split; [reflexivity|]. now exists o.
  - subst target. contradiction.
Qed.

Lemma switch_absent (checked : bool) (xs : list DraftOption) :
  JS.find (fun o => String.eqb (o_id o) optionId) (map (switch false) xs) = None ->
  map (switch checked) xs = xs.
Proof.
  intro H. apply (touch_absent optionId (ativoOfOption checked)).
  apply find_absent in H. unfold switch in H.
  rewrite (touch_ids optionId (ativoOfOption false) xs eq_refl) in H. exact H.
Qed.

End Toggling.

(** [updateOption] with [{ ativo: false }] is the map that switches the
    option off. *)
Lemma updateOption_off (questionId optionId : string) (qs : list DraftQuestion)
  (err : option string) :
  JS.mapS (updateOption_question questionId optionId (ativoOfOption false)) qs err
  = (map (fun q =>
            if String.eqb (q_id q) questionId
            then withOptions q
                   (map (fun o =>
                           if String.eqb (o_id o) optionId
                           then spreadOption o (ativoOfOption false)
                           else o)
                        (q_options q))
            else q)
         qs,
     err).
Proof.
  apply mapS_pure. intros q err' _. unfold updateOption_question.
  destruct (String.eqb (q_id q) questionId); cbn [negb]; [|reflexivity].
  destruct (JS.find _ (q_options q)) as [target|] eqn:Hfind;
    cbn [ou_ativo ativoOfOption andb]; [reflexivity|].
  apply find_absent in Hfind.
  rewrite (touch_absent optionId (ativoOfOption false) (q_options q) Hfind).
  now rewrite withOptions_same.
Qed.

(** X1. Switching an option off and on again gives the page back, error
    cell included, when the addressed questions are within the cap and the
    option was active. *)
Theorem toggle_off_on_restores (questionId optionId : string) (p : Page) :
  (forall q, In q (questions p) -> q_id q = questionId ->
             countActiveOptions (q_options q) <= 5
             /\ (forall o, In o (q_options q) -> o_id o = optionId -> o_ativo o = true)) ->
  updateOption questionId optionId (ativoOfOption true)
               (updateOption questionId optionId (ativoOfOption false) p)
  = p.
Proof.
  intro H. unfold updateOption at 2. rewrite updateOption_off.
  unfold updateOption. cbn [questions error setQuestions setError].
  assert (JS.mapS (updateOption_question questionId optionId (ativoOfOption true))
            (map (fun q =>
                    if String.eqb (q_id q) questionId
                    then withOptions q
                           (map (fun o =>
                                   if String.eqb (o_id o) optionId
                                   then spreadOption o (ativoOfOption false)
                                   else o)
                                (q_options q))
                    else q)
                 (questions p))
            (error p)
          = (questions p, error p)) as Hback.
  { generalize (error p) as err. revert H.
    induction (questions p) as [|q qs IH]; intros H err; [reflexivity|].
    cbn [map JS.mapS].
    assert (updateOption_question questionId optionId (ativoOfOption true)
              (if String.eqb (q_id q) questionId
               then withOptions q
                      (map (fun o =>
                              if String.eqb (o_id o) optionId
                              then spreadOption o (ativoOfOption false)
                              else o)
                           (q_options q))
               else q)
              err
            = (q, err)) as ->.
    { unfold updateOption_question.
      destruct (String.eqb_spec (q_id q) questionId) as [E|E].
      - cbn [q_id withOptions q_options]. rewrite E, String.eqb_refl. cbn [negb].
        destruct (H q (or_introl eq_refl) E) as [Hcap Hon].
        destruct (JS.find _ _) as [target|] eqn:Hfind.
        + destruct (@switch_off_find optionId _ _ Hfind) as [Hoff (o & Hin & Hid)].
          cbn [ou_ativo ativoOfOption]. rewrite Hoff. cbn [negb andb].
          pose proof (@switch_off_count optionId (q_options q) o Hin Hid (Hon o Hin Hid)) as Hlt.
          cbv beta in Hlt.
          assert ((MAX_ACTIVE_OPTIONS <=? countActiveOptions
                     (map (fun o0 => if String.eqb (o_id o0) optionId
                                     then spreadOption o0 (ativoOfOption false) else o0)
                          (q_options q))) = false) as ->.
          { apply Nat.leb_gt. unfold MAX_ACTIVE_OPTIONS. lia. }
          rewrite (@switch_off_on optionId (q_options q) Hon).
          unfold withOptions. cbn. now destruct q.
        + rewrite (@switch_absent optionId false (q_options q) Hfind).
          now rewrite withOptions_same.
      - apply String.eqb_neq in E. now rewrite E. }
    rewrite IH by (intros q' Hq'; apply H; now right). reflexivity. }
  rewrite Hback. cbn [fst snd]. now destruct p.
Qed.

Lemma toggle_off_on_restores_witness :
  updateOption "q1" "o3" (ativoOfOption true)
               (updateOption "q1" "o3" (ativoOfOption false) cappedPage)
  = cappedPage.
Proof.
  apply toggle_off_on_restores.
  intros q [<-|[]] _. split; [vm_compute; lia|].
  intros o Hin Hid. vm_compute in Hin.
  repeat (destruct Hin as [<-|Hin]; [try reflexivity; discriminate Hid|]).
  contradiction.
Defined.

(** X2. Editing the text of an option never raises the cap warning and
    changes nothing but texts: the error cell, the questions' identifiers,
    texts and orders, and every option's identifier and active flag are as
    before. *)
Theorem option_text_edit_frame (questionId optionId value : string) (p : Page) :
  error (updateOption questionId optionId (textoOfOption value) p) = error p
  /\ map (fun q => (q_id q, q_texto q, q_ordem q,
                    map (fun o => (o_id o, o_ativo o)) (q_options q)))
         (questions (updateOption questionId optionId (textoOfOption value) p))
     = map (fun q => (q_id q, q_texto q, q_ordem q,
                      map (fun o => (o_id o, o_ativo o)) (q_options q)))
           (questions p).
Proof.
  unfold updateOption.
  rewrite (mapS_pure (updateOption_question questionId optionId (textoOfOption value))
             (fun q => fst (updateOption_question questionId optionId
                                                  (textoOfOption value) q None))).
  - cbn [fst snd error questions setError setQuestions]. split; [reflexivity|].
    rewrite map_map. apply map_ext. intro q. unfold updateOption_question.
    destruct (String.eqb (q_id q) questionId); cbn [negb fst]; [|reflexivity].
    destruct (JS.find _ (q_options q)); cbn [ou_ativo textoOfOption andb fst]; [|reflexivity].
    cbn [withOptions q_id q_texto q_ordem q_options]. f_equal.
    rewrite map_map. apply map_ext. intro o.
    now destruct (String.eqb (o_id o) optionId).
  - intros q err _. unfold updateOption_question.
    destruct (String.eqb (q_id q) questionId); cbn [negb fst]; [|reflexivity].
    now destruct (JS.find _ (q_options q)).
Qed.

Lemma mapS_app {S A B : Type} (f : A -> S -> B * S) (xs ys : list A) (s : S) :
  JS.mapS f (xs ++ ys) s
  = (fst (JS.mapS f xs s) ++ fst (JS.mapS f ys (snd (JS.mapS f xs s))),
     snd (JS.mapS f ys (snd (JS.mapS f xs s)))).
Proof.
  revert s. induction xs as [|x xs IH]; intro s; cbn [app JS.mapS].
  - cbn [fst snd app]. now destruct (JS.mapS f ys s).
  - destruct (f x s) as [y s1]. rewrite IH.
    destruct (JS.mapS f xs s1) as [ys1 s2]. cbn [fst snd].
    now destruct (JS.mapS f ys s2).
Qed.

(** X3. Adding an option to the one question with the given identifier and
    then removing the option just added gives the question list back; one
    identifier was drawn. The question must hold at least one option (with
    none, the added option is the last one and stays) and the identifier
    drawn must not be in use in it. *)
Theorem add_then_remove_option (uuid : nat -> string) (questionId : string)
  (p : Page) (n : nat) (before after : list DraftQuestion) (q : DraftQuestion) :
  questions p = before ++ q :: after ->
  Forall (fun x => q_id x <> questionId) before ->
  Forall (fun x => q_id x <> questionId) after ->
  q_id q = questionId ->
  q_options q <> [] ->
  ~ In (uuid n) (map o_id (q_options q)) ->
  questions (handleRemoveOption questionId (uuid n)
                                (fst (handleAddOption uuid questionId p n)))
  = questions p
  /\ snd (handleAddOption uuid questionId p n) = S n.
Proof.
  intros Hqs Hb Ha Hid Hne Hfresh.
  assert (forall (l : list DraftQuestion) s,
             Forall (fun x => q_id x <> questionId) l ->
             JS.mapS (handleAddOption_question uuid questionId) l s = (l, s)) as Hskip.
  { intros l s Hl. apply mapS_fixed. intros x s' Hx.
    rewrite Forall_forall in Hl. specialize (Hl x Hx). apply String.eqb_neq in Hl.
    unfold handleAddOption_question. now rewrite Hl. }
  assert (forall l : list DraftQuestion,
             Forall (fun x => q_id x <> questionId) l ->
             map (fun question =>
                    if String.eqb (q_id question) questionId
                    then withOptions question
                           (if 1 <? List.length (q_options question)
                            then filter (fun option => negb (String.eqb (o_id option) (uuid n)))
                                        (q_options question)
                            else q_options question)
                    else question) l = l) as Hkeep.
  { intros l Hl. rewrite <- (map_id l) at 2. apply map_ext_in. intros x Hx.
    rewrite Forall_forall in Hl. specialize (Hl x Hx). apply String.eqb_neq in Hl.
    now rewrite Hl. }
  assert (JS.mapS (handleAddOption_question uuid questionId) (questions p) (error p, n)
          = (before
               ++ withOptions q
                    (q_options q
                       ++ [mkOption (uuid n) EmptyString
                             (negb (MAX_ACTIVE_OPTIONS <=? countActiveOptions (q_options q)))])
               :: after,
             (if MAX_ACTIVE_OPTIONS <=? countActiveOptions (q_options q)
              then Some LIMIT_ON_ADD else error p,
              S n))) as Hadd.
  { rewrite Hqs, mapS_app, (Hskip before _ Hb). cbn [fst snd JS.mapS].
    assert (handleAddOption_question uuid questionId q (error p, n)
            = (withOptions q
                 (q_options q
                    ++ [mkOption (uuid n) EmptyString
                          (negb (MAX_ACTIVE_OPTIONS <=? countActiveOptions (q_options q)))]),
               (if MAX_ACTIVE_OPTIONS <=? countActiveOptions (q_options q)
                then Some LIMIT_ON_ADD else error p,
                S n))) as ->.
    { unfold handleAddOption_question. now rewrite Hid, String.eqb_refl. }
    now rewrite (Hskip after _ Ha). }
  unfold handleAddOption. rewrite Hadd. cbn [fst snd questions setError setQuestions].
  split; [|reflexivity].
  unfold handleRemoveOption. cbn [questions setQuestions setError].
  rewrite map_app, (Hkeep before Hb). cbn [map]. rewrite (Hkeep after Ha).
  cbn [withOptions q_id q_options]. rewrite Hid, String.eqb_refl.
  assert ((1 <? List.length (q_options q ++
             [mkOption (uuid n) EmptyString
                       (negb (MAX_ACTIVE_OPTIONS <=? countActiveOptions (q_options q)))]))
          = true) as ->.
  { apply Nat.ltb_lt. rewrite length_app. cbn [List.length].
    destruct (q_options q); [now elim Hne | cbn [List.length]; lia]. }
  rewrite filter_app. cbn [filter o_id]. rewrite String.eqb_refl. cbn [negb].
  rewrite app_nil_r.
  assert (filter (fun option => negb (String.eqb (o_id option) (uuid n))) (q_options q)
          = q_options q) as ->.
  { apply forallb_filter_id. apply forallb_forall. intros o Ho.
    apply negb_true_iff. apply String.eqb_neq. intro E. apply Hfresh.
    rewrite <- E. now apply in_map. }
  rewrite Hqs. f_equal. f_equal. now destruct q.
Qed.

Lemma add_then_remove_option_witness :
  questions (handleRemoveOption "q1" (counterIds 0)
                                (fst (handleAddOption counterIds "q1" cappedPage 0)))
  = questions cappedPage.
Proof.
  refine (proj1 (@add_then_remove_option counterIds "q1" cappedPage 0 [] []
                   cappedQuestion eq_refl _ _ eq_refl _ _)).
  - constructor.
  - constructor.
  - discriminate.
  - vm_compute. intuition discriminate.
Defined.

(** Removing by key from a list whose keys differ removes exactly one
    element when the key is present. *)
Lemma filter_key_length {A : Type} (key : A -> string) (k : string) (xs : list A) :
  NoDup (map key xs) -> In k (map key xs) ->
  S (List.length (filter (fun x => negb (String.eqb (key x) k)) xs)) = List.length xs
  /\ ~ In k (map key (filter (fun x => negb (String.eqb (key x) k)) xs)).
Proof.
  intros Hnd Hin. split.
  - induction xs as [|x xs IH]; [contradiction|].
    inversion Hnd as [|? ? Hnotin Hnd']; subst. cbn [filter].
    destruct (String.eqb_spec (key x) k) as [E|E]; cbn [negb List.length].
    + f_equal. f_equal. apply forallb_filter_id. apply forallb_forall. intros y Hy.
      apply negb_true_iff. apply String.eqb_neq. intro E'. apply Hnotin.
      rewrite E, <- E'. now apply in_map.
    + f_equal. apply IH; [exact Hnd'|]. destruct Hin as [Hin|Hin]; [contradiction|exact Hin].
  - intro H. apply in_map_iff in H as [x [Hx Hx']]. apply filter_In in Hx' as [_ Hx'].
    rewrite Hx, String.eqb_refl in Hx'. discriminate.
Qed.

(** X4. With question identifiers that differ and at least two questions,
    [handleRemoveQuestion] on the identifier of a question of the draft
    removes exactly that question: the others stay in order, the list is
    one shorter and the identifier is gone. *)
Theorem remove_question_exact (id : string) (p : Page) :
  NoDup (map q_id (questions p)) ->
  In id (map q_id (questions p)) ->
  2 <= List.length (questions p) ->
  questions (handleRemoveQuestion id p)
  = filter (fun question => negb (String.eqb (q_id question) id)) (questions p)
  /\ S (List.length (questions (handleRemoveQuestion id p))) = List.length (questions p)
  /\ ~ In id (map q_id (questions (handleRemoveQuestion id p))).
Proof.
  intros Hnd Hin Hlen.
  destruct (filter_key_length q_id id (questions p) Hnd Hin) as [Hcount Hgone].
  unfold handleRemoveQuestion. cbn [questions setQuestions].
  destruct (filter _ (questions p)) as [|x xs] eqn:Hf.
  - cbn [List.length] in Hcount. lia.
  - now repeat split.
Qed.

Lemma remove_question_exact_witness :
  S (List.length (questions (handleRemoveQuestion "qa" editedPage)))
  = List.length (questions editedPage).
Proof.
  refine (proj1 (proj2 (@remove_question_exact "qa" editedPage _ _ _))).
  - apply distinct_NoDup. reflexivity.
  - vm_compute. now left.
  - vm_compute. lia.
Defined.

(** X5. With option identifiers that differ within the question and at
    least two options, [handleRemoveOption] on the identifier of one of the
    question's options removes exactly that option: the question keeps its
    identifier, text and order, its other options stay in order, and it
    holds one option fewer. *)
Theorem remove_option_exact (questionId optionId : string) (p : Page) (i : nat)
  (q : DraftQuestion) :
  nth_error (questions p) i = Some q ->
  q_id q = questionId ->
  NoDup (map o_id (q_options q)) ->
  In optionId (map o_id (q_options q)) ->
  2 <= List.length (q_options q) ->
  exists q',
    nth_error (questions (handleRemoveOption questionId optionId p)) i = Some q'
    /\ q' = withOptions q (filter (fun option => negb (String.eqb (o_id option) optionId))
                                  (q_options q))
    /\ S (List.length (q_options q')) = List.length (q_options q)
    /\ ~ In optionId (map o_id (q_options q')).
Proof.
  intros Hq Hid Hnd Hin Hlen.
  destruct (filter_key_length o_id optionId (q_options q) Hnd Hin) as [Hcount Hgone].
  eexists. split; [|split; [reflexivity|split; [exact Hcount | exact Hgone]]].
  unfold handleRemoveOption. cbn [questions setQuestions].
  rewrite nth_error_map, Hq. cbn [option_map]. rewrite Hid, String.eqb_refl.
  assert ((1 <? List.length (q_options q)) = true) as ->; [|reflexivity].
  apply Nat.ltb_lt. lia.
Qed.

Lemma remove_option_exact_witness :
  exists q',
    nth_error (questions (handleRemoveOption "qa" "a2" editedPage)) 0 = Some q'
    /\ map o_id (q_options q') = ["a1"%string].
Proof.
  destruct (@remove_option_exact "qa" "a2" editedPage 0 _ eq_refl eq_refl)
    as (q' & Hnth & Hq' & _).
  - apply distinct_NoDup. reflexivity.
  - vm_compute. intuition.
  - vm_compute. lia.
  - exists q'. split; [exact Hnth|]. rewrite Hq'. reflexivity.
Defined.

Lemma run_adds_ordem (uuid : nat -> string) (k : nat) (p : Page) (n : nat) :
  map q_ordem (questions (fst (run uuid (repeat ClickAddQuestion k) (p, n))))
  = map q_ordem (questions p)
    ++ map Z.of_nat (seq (S (List.length (questions p))) k).
Proof.
  revert p n. induction k as [|k IH]; intros p n; cbn [repeat run fold_left seq map].
  - cbn [fst]. now rewrite app_nil_r.
  - change (fold_left (fun acc ev => step uuid ev acc) (repeat ClickAddQuestion k)
                      (step uuid ClickAddQuestion (p, n)))
      with (run uuid (repeat ClickAddQuestion k) (step uuid ClickAddQuestion (p, n))).
    cbn [step]. unfold handleAddQuestion.
    destruct (createQuestionDraft uuid (Z.of_nat (List.length (questions p)) + 1) n)
      as [q n1] eqn:Hq.
    rewrite IH. cbn [questions setQuestions].
    rewrite map_app, length_app, <- app_assoc. cbn [map app List.length].
    assert (q_ordem q = Z.of_nat (S (List.length (questions p)))) as ->.
    { unfold createQuestionDraft in Hq. cbn in Hq. injection Hq as <- _. cbn [q_ordem]. lia. }
    now rewrite Nat.add_1_r.
Qed.

(** X6. Questions added one after the other are numbered by position: on
    the page as first rendered, after [k] clicks on "Adicionar pergunta",
    the orders of the questions are 1, 2, ..., k + 1. *)
Theorem added_questions_numbered (uuid : nat -> string) (k : nat) :
  map q_ordem (questions (fst (reach uuid (repeat ClickAddQuestion k))))
  = map Z.of_nat (seq 1 (S k)).
Proof.
  unfold reach, initialPage.
  destruct (createQuestionDraft uuid 1 0) as [q n1] eqn:Hq.
  rewrite run_adds_ordem. cbn [questions map List.length seq app].
  unfold createQuestionDraft in Hq. cbn in Hq. injection Hq as <- _. reflexivity.
Qed.

(** * Further properties of the submission pipeline *)

Lemma Run_weaken {Backend A : Type} (m : Api Backend A) (w : World Backend)
  (Q Q' : Completion A -> list (Call * Reply) -> Prop) :
  Run m w Q -> (forall r evs, Q r evs -> Q' r evs) -> Run m w Q'.
Proof.
  intros (evs & Ht & Hn & HQ) H. exists evs. auto.
Qed.

Section SubmitFurther.

Variable trim : string -> string.
Variable toISOString : string -> Completion string.
Variable Backend : Type.
Variable server : Call -> Backend -> Reply * Backend.

Local Abbreviation submit := (handleSubmit trim toISOString server).

(** A submission of a valid draft in which every call is answered: the
    identifier the [try] block ends with is the one returned for the
    survey. *)
Lemma submission_answered (p p' : Page) (w w' : World Backend) :
  passesValidation trim p ->
  expiryOf toISOString p <> None ->
  submit p w = (p', w') ->
  allResolved (issued w w') ->
  exists expiry sid answers,
    expiryOf toISOString p = Some expiry
    /\ map (fun a => List.length (snd a)) answers
       = map (fun q => List.length (sendable trim q)) (questions p)
    /\ issued w w' = exchange trim p expiry sid answers
    /\ p' = setIsSaving false (setSuccess (Some CREATED) (setError None p))
    /\ navigations w' = navigations w ++ [append "/surveys/" (JS.string_of_Z sid)].
Proof.
  intros Hvalid Hexp Hrun Hres.
  rewrite (handleSubmit_passes toISOString server w Hvalid) in Hrun.
  destruct (submitDraft_run trim toISOString server p w) as (evs & Ht & Hn & _ & Hpost).
  destruct (submitDraft trim toISOString server p w) as [[sid|err] w1];
    cbn [fst snd] in *; injection Hrun as <- <-.
  - destruct Hpost as (expiry & answers & He & Hlens & ->).
    exists expiry, sid, answers. repeat split; try assumption.
    + now apply issued_app.
    + cbn [navigate navigations]. now rewrite Hn.
  - rewrite (@issued_app _ w w1 evs Ht) in Hres. destruct Hpost as [[_ Hnone]|Hstop].
    + now elim Hexp.
    + destruct Hstop as (pre & c & Heq & _).
      elim (allResolved_not_rejected pre [] c err Hres Heq).
Qed.

(** X7. A successful submission ends on the new survey: when the draft
    passes validation, the expiry converts and no call is rejected, the
    first call is the survey-create, and the page navigates once, to
    [/surveys/<id>] with the identifier returned for that call; the success
    message is set, the error is cleared and the saving flag is off. *)
Theorem submission_success (p p' : Page) (w w' : World Backend) :
  passesValidation trim p ->
  expiryOf toISOString p <> None ->
  submit p w = (p', w') ->
  allResolved (issued w w') ->
  exists expiry sid rest,
    issued w w' = (SurveyCreate (surveyPayload trim p expiry), Resolved sid) :: rest
    /\ navigations w' = navigations w ++ [append "/surveys/" (JS.string_of_Z sid)]
    /\ success p' = Some CREATED
    /\ error p' = None
    /\ isSaving p' = false.
Proof.
  intros Hvalid Hexp Hrun Hres.
  destruct (@submission_answered p p' w w' Hvalid Hexp Hrun Hres)
    as (expiry & sid & answers & _ & _ & Hissued & -> & Hnav).
  exists expiry, sid, (flat_map (questionExchange trim sid) (combine (questions p) answers)).
  repeat split; assumption.
Qed.

Lemma question_calls_count (sid : Z) (qs : list DraftQuestion) (answers : list (Z * list Z)) :
  map (fun a => List.length (snd a)) answers
  = map (fun q => List.length (sendable trim q)) qs ->
  countCalls isSurveyCreate (flat_map (questionExchange trim sid) (combine qs answers)) = 0
  /\ countCalls isQuestionCreate (flat_map (questionExchange trim sid) (combine qs answers))
     = List.length qs
  /\ countCalls isOptionCreate (flat_map (questionExchange trim sid) (combine qs answers))
     = List.length (filter (fun o => JS.truthy (trim (o_texto o))) (flat_map q_options qs)).
Proof.
  assert (forall qid (opts : list DraftOption) (oids : list Z),
             List.length oids = List.length opts ->
             countCalls isSurveyCreate
               (map (fun oa => (optionCall trim qid (fst oa), Resolved (snd oa)))
                    (combine opts oids)) = 0
             /\ countCalls isQuestionCreate
                  (map (fun oa => (optionCall trim qid (fst oa), Resolved (snd oa)))
                       (combine opts oids)) = 0
             /\ countCalls isOptionCreate
                  (map (fun oa => (optionCall trim qid (fst oa), Resolved (snd oa)))
                       (combine opts oids)) = List.length opts) as Hopts.
  { intros qid opts. unfold countCalls.
    induction opts as [|o opts IH]; intros [|oid oids] Hlen; try discriminate;
      [now repeat split|].
    injection Hlen as Hlen. destruct (IH oids Hlen) as (H1 & H2 & H3).
    cbn [combine map fst filter optionCall isSurveyCreate isQuestionCreate isOptionCreate
         List.length]. now rewrite H1, H2, H3. }
  revert answers. induction qs as [|q qs IH]; intros [|[qid oids] answers] Hlens;
    try discriminate; [now repeat split|].
  cbn [map snd] in Hlens. injection Hlens as Hlen Hlens.
  destruct (IH answers Hlens) as (H1 & H2 & H3).
  destruct (Hopts qid (sendable trim q) oids Hlen) as (G1 & G2 & G3).
  unfold countCalls in *. cbn [combine flat_map questionExchange].
  rewrite !map_app, !filter_app, !length_app.
  cbn [map fst filter questionCall isSurveyCreate isQuestionCreate isOptionCreate List.length].
  rewrite H1, H2, H3, G1, G2, G3. repeat split; lia.
Qed.

(** X8. The number of calls of a successful submission: one survey-create,
    one question-create per question, and one option-create per option of
    the draft whose trimmed text is not empty, so that blank options are
    the only ones not sent. *)
Theorem submission_call_counts (p p' : Page) (w w' : World Backend) :
  passesValidation trim p ->
  expiryOf toISOString p <> None ->
  submit p w = (p', w') ->
  allResolved (issued w w') ->
  countCalls isSurveyCreate (issued w w') = 1
  /\ countCalls isQuestionCreate (issued w w') = List.length (questions p)
  /\ countCalls isOptionCreate (issued w w')
     + List.length (filter (fun o => negb (JS.truthy (trim (o_texto o)))) (allOptions p))
     = List.length (allOptions p).
Proof.
  intros Hvalid Hexp Hrun Hres.
  destruct (@submission_answered p p' w w' Hvalid Hexp Hrun Hres)
    as (expiry & sid & answers & _ & Hlens & -> & _).
  destruct (question_calls_count sid (questions p) answers Hlens) as (H1 & H2 & H3).
  unfold exchange, countCalls in *. cbn [map fst filter isSurveyCreate isQuestionCreate
                                          isOptionCreate List.length].
  rewrite H1, H2, H3. repeat split. unfold allOptions.
  generalize (flat_map q_options (questions p)) as opts.
  induction opts as [|o opts IH]; [reflexivity|].
  cbn [filter]. destruct (JS.truthy (trim (o_texto o))); cbn [negb List.length]; lia.
Qed.

(** X9. An expiry that cannot be converted stops the submission before any
    call: for a draft that passes validation and whose expiry is not
    empty, when [toISOString] throws [e] the world is left as it was and
    the page shows [parseApiError e], with no success message and the
    saving flag off. *)
Theorem invalid_expiry_blocks_submission (p : Page) (w : World Backend) (e : Thrown) :
  passesValidation trim p ->
  dataValidade p <> EmptyString ->
  toISOString (dataValidade p) = Abrupt e ->
  submit p w
  = (setIsSaving false (setError (Some (parseApiError e)) (setSuccess None p)), w).
Proof.
  intros Hvalid Hdate Hthrow.
  rewrite (handleSubmit_passes toISOString server w Hvalid).
  unfold submitDraft, bind, dataValidadeField.
  apply truthy_true_iff in Hdate. rewrite Hdate, Hthrow. reflexivity.
Qed.

(** Every submission of a valid draft whose expiry converts starts with the
    survey-create call. *)
Lemma submission_starts_with_survey (p p' : Page) (w w' : World Backend)
  (expiry : option string) :
  passesValidation trim p ->
  expiryOf toISOString p = Some expiry ->
  submit p w = (p', w') ->
  exists reply rest,
    issued w w' = (SurveyCreate (surveyPayload trim p expiry), reply) :: rest.
Proof.
  intros Hvalid Hexp Hrun.
  rewrite (handleSubmit_passes toISOString server w Hvalid) in Hrun.
  assert (Run (submitDraft trim toISOString server p) w
              (fun _ evs => exists reply rest,
                   evs = (SurveyCreate (surveyPayload trim p expiry), reply) :: rest))
    as (evs & Ht & _ & reply & rest & ->).
  { unfold submitDraft.
    apply Run_bind with (Q1 := fun r evs => evs = [] /\ r = Normal expiry).
    - unfold dataValidadeField. unfold expiryOf in Hexp.
      destruct (JS.truthy (dataValidade p)).
      + destruct (toISOString (dataValidade p)); [|discriminate].
        injection Hexp as <-. apply Run_ret. now split.
      + injection Hexp as <-. apply Run_ret. now split.
    - intros expiry' evs0 w0 [-> Heq]. injection Heq as ->. cbn [app].
      apply Run_bind with (Q1 := fun r evs =>
        exists reply, evs = [(SurveyCreate (surveyPayload trim p expiry), reply)]).
      + apply Run_await; intros; eexists; reflexivity.
      + intros sid evs1 w1 [reply ->].
        apply Run_bind with (Q1 := fun _ _ => True).
        * eapply Run_weaken; [apply questions_run | trivial].
        * intros _ evs2 w2 _. apply Run_ret. eexists. eexists. reflexivity.
        * intros e evs2 _. eexists. eexists. reflexivity.
      + intros e evs1 [reply ->]. eexists. eexists. reflexivity.
    - intros e evs0 [_ Heq]. discriminate Heq. }
  exists reply, rest.
  destruct (submitDraft trim toISOString server p w) as [[sid|err] w1];
    cbn [fst snd] in *; injection Hrun as <- <-; now apply issued_app.
Qed.

(** X10. Submission is not idempotent. Submitting again the page a
    submission left (after a rejected call, say) issues the survey-create
    once more, with the same payload: each of the two runs starts with
    it. *)
Theorem resubmission_repeats_survey_create (p p' p'' : Page) (w w' w'' : World Backend)
  (expiry : option string) :
  passesValidation trim p ->
  expiryOf toISOString p = Some expiry ->
  submit p w = (p', w') ->
  submit p' w' = (p'', w'') ->
  exists reply1 rest1 reply2 rest2,
    issued w w' = (SurveyCreate (surveyPayload trim p expiry), reply1) :: rest1
    /\ issued w' w'' = (SurveyCreate (surveyPayload trim p expiry), reply2) :: rest2.
Proof.
  intros Hvalid Hexp Hrun1 Hrun2.
  pose proof (handleSubmit_draft trim toISOString server p w) as (H1 & H2 & H3 & H4 & H5 & _).
  rewrite Hrun1 in *. cbn [fst] in *.
  destruct (@submission_starts_with_survey p p' w w' expiry Hvalid Hexp Hrun1) as (reply1 & rest1 & Hfirst).
  assert (passesValidation trim p') as Hvalid'.
  { unfold passesValidation in *. now rewrite H1, H5. }
  assert (expiryOf toISOString p' = Some expiry) as Hexp'.
  { unfold expiryOf in *. now rewrite H4. }
  destruct (@submission_starts_with_survey p' p'' w' w'' expiry Hvalid' Hexp' Hrun2) as (reply2 & rest2 & Hsecond).
  exists reply1, rest1, reply2, rest2. split; [exact Hfirst|].
  rewrite Hsecond. unfold surveyPayload. now rewrite H1, H2, H3.
Qed.

End SubmitFurther.

Lemma submission_success_witness :
  exists expiry sid rest,
    issued freshWorld
           (snd (handleSubmit spaceTrim plainDate (countingServer (-1)) twoByThree freshWorld))
    = (SurveyCreate (surveyPayload spaceTrim twoByThree expiry), Resolved sid) :: rest
    /\ navigations (snd (handleSubmit spaceTrim plainDate (countingServer (-1))
                                      twoByThree freshWorld))
       = navigations freshWorld ++ [append "/surveys/" (JS.string_of_Z sid)]
    /\ success (fst (handleSubmit spaceTrim plainDate (countingServer (-1))
                                  twoByThree freshWorld)) = Some CREATED
    /\ error (fst (handleSubmit spaceTrim plainDate (countingServer (-1))
                                twoByThree freshWorld)) = None
    /\ isSaving (fst (handleSubmit spaceTrim plainDate (countingServer (-1))
                                   twoByThree freshWorld)) = false.
Proof.
  apply (@submission_success spaceTrim plainDate Z (countingServer (-1))
           twoByThree _ freshWorld _).
  - split; [discriminate|]. split; repeat constructor; try discriminate; vm_compute; lia.
  - discriminate.
  - apply surjective_pairing.
  - vm_compute. repeat constructor.
Defined.

Lemma submission_call_counts_witness :
  countCalls isOptionCreate
             (issued freshWorld
                     (snd (handleSubmit spaceTrim plainDate (countingServer (-1))
                                        blankOptionPage freshWorld)))
  + 1
  = 2.
Proof.
  refine (proj2 (proj2 (@submission_call_counts spaceTrim plainDate Z (countingServer (-1))
                          blankOptionPage _ freshWorld _ _ _ (surjective_pairing _) _))).
  - split; [discriminate|]. split; repeat constructor; try discriminate; vm_compute; lia.
  - discriminate.
  - vm_compute. repeat constructor.
Defined.

Lemma invalid_expiry_blocks_submission_witness :
  handleSubmit spaceTrim rejectingDate (countingServer (-1)) datedPage freshWorld
  = (setIsSaving false
       (setError (Some (parseApiError (JsError "Invalid time value")))
                 (setSuccess None datedPage)),
     freshWorld).
Proof.
  apply invalid_expiry_blocks_submission.
  - split; [discriminate|]. split; repeat constructor; try discriminate; vm_compute; lia.
  - discriminate.
  - reflexivity.
Defined.

Lemma resubmission_repeats_survey_create_witness :
  exists reply1 rest1 reply2 rest2,
    issued freshWorld
           (snd (handleSubmit spaceTrim plainDate (countingServer 102) twoByThree freshWorld))
    = (SurveyCreate (surveyPayload spaceTrim twoByThree None), reply1) :: rest1
    /\ issued (snd (handleSubmit spaceTrim plainDate (countingServer 102)
                                 twoByThree freshWorld))
              (snd (handleSubmit spaceTrim plainDate (countingServer 102)
                      (fst (handleSubmit spaceTrim plainDate (countingServer 102)
                                         twoByThree freshWorld))
                      (snd (handleSubmit spaceTrim plainDate (countingServer 102)
                                         twoByThree freshWorld))))
       = (SurveyCreate (surveyPayload spaceTrim twoByThree None), reply2) :: rest2.
Proof.
  apply (@resubmission_repeats_survey_create spaceTrim plainDate Z (countingServer 102)
           twoByThree
           (fst (handleSubmit spaceTrim plainDate (countingServer 102) twoByThree freshWorld))
           (fst (handleSubmit spaceTrim plainDate (countingServer 102)
                   (fst (handleSubmit spaceTrim plainDate (countingServer 102)
                                      twoByThree freshWorld))
                   (snd (handleSubmit spaceTrim plainDate (countingServer 102)
                                      twoByThree freshWorld))))
           freshWorld _ _ None).
  - split; [discriminate|]. split; repeat constructor; try discriminate; vm_compute; lia.
  - reflexivity.
  - apply surjective_pairing.
  - apply surjective_pairing.
Defined.

(** * Properties of the API client's session handling *)

Lemma setAuthToken_inSync (token : option string) (s : Session) :
  inSync (setAuthToken token s).
Proof.
  unfold inSync, setAuthToken. destruct token as [t|]; [|reflexivity].
  destruct (JS.truthy t) eqn:Ht; cbn [authorization storedToken]; [|reflexivity].
  now rewrite Ht.
Qed.

Lemma redirectToLogin_inSync (s : Session) : inSync s -> inSync (redirectToLogin s).
Proof.
  unfold inSync, redirectToLogin. now destruct (hasRedirectedForAuth s).
Qed.

Lemma onResponseError_inSync (error : Thrown) (s : Session) :
  inSync s -> inSync (snd (onResponseError error s)).
Proof.
  intro H. unfold onResponseError. destruct (_ || _); cbn [snd]; [|exact H].
  apply redirectToLogin_inSync, setAuthToken_inSync.
Qed.

Lemma sessionStep_inSync (decodeJwtPayload : string -> option JwtPayload)
  (ev : SessionEvent) (s : Session) :
  inSync s -> inSync (sessionStep decodeJwtPayload ev s).
Proof.
  intro H. destruct ev as [token|error|now|outcome|failure]; cbn [sessionStep].
  - apply setAuthToken_inSync.
  - now apply onResponseError_inSync.
  - unfold ensureValidSession. destruct (isTokenExpired _ _ _); cbn [snd]; [|exact H].
    apply redirectToLogin_inSync, setAuthToken_inSync.
  - unfold login. destruct outcome as [error|r].
    + pose proof (onResponseError_inSync error H) as H'.
      now destruct (onResponseError error s).
    + destruct (loginToken r); cbn [snd]; [apply setAuthToken_inSync | exact H].
  - unfold logout.
    destruct (storedToken s) as [t|]; [|apply setAuthToken_inSync].
    destruct (JS.truthy t); [|apply setAuthToken_inSync].
    destruct failure as [error|]; [|apply setAuthToken_inSync].
    destruct (onResponseError error s). apply setAuthToken_inSync.
Qed.

(** X11. The [Authorization] header and the stored token never drift
    apart: from the loading of the module on, whatever the token found in
    storage and whatever the sequence of [setAuthToken], rejected
    responses, session checks, logins and logouts, the header is
    ["Bearer "] followed by the stored token, and is absent exactly when no
    token, or an empty one, is stored. *)
Theorem session_in_sync (decodeJwtPayload : string -> option JwtPayload)
  (stored : option string) (evs : list SessionEvent) :
  inSync (sessionRun decodeJwtPayload evs (loadSession stored)).
Proof.
  unfold sessionRun.
  assert (inSync (loadSession stored)) as H by reflexivity.
  revert H. generalize (loadSession stored) as s.
  induction evs as [|ev evs IH]; intros s H; cbn [fold_left]; [exact H|].
  apply IH. now apply sessionStep_inSync.
Qed.

(** X12. A response with status 401 or 403 always ends the session and
    always redirects: the token and the header are dropped, [/login] is
    assigned once more even when a redirect had been made before (the flag
    is reset just before it is tested), and whatever the body of the
    response the caller is left with the session-expired message. *)
Theorem unauthorized_always_redirects (error : Thrown) (s : Session) :
  statusOf error = Some 401%Z \/ statusOf error = Some 403%Z ->
  onResponseError error s
  = (JsError SESSION_EXPIRED,
     mkSession None None true (assigned s ++ [loginRedirectPath]))
  /\ parseApiError (fst (onResponseError error s)) = SESSION_EXPIRED.
Proof.
  intro H. unfold onResponseError.
  assert (statusIs (statusOf error) 401 || statusIs (statusOf error) 403 = true) as ->.
  { destruct H as [-> | ->]; reflexivity. }
  split; reflexivity.
Qed.

Lemma unauthorized_always_redirects_witness :
  onResponseError
    (AxiosError (Some (mkResponse 401 (Some (mkApiError "Bad credentials" None)))) None)
    (mkSession (Some "Bearer abc"%string) (Some "abc"%string) true ["/login"%string])
  = (JsError SESSION_EXPIRED,
     mkSession None None true ["/login"; "/login"]%string).
Proof.
  refine (proj1 (@unauthorized_always_redirects _ _ _)). now left.
Defined.

(** X13. [ensureValidSession] on a session in sync: a token is returned
    only if it is the stored one, is not empty and is not expired, and
    then the session is untouched and the header carries that token;
    otherwise the token and the header are dropped and [/login] is assigned
    exactly once more. *)
Theorem ensureValidSession_outcome (decodeJwtPayload : string -> option JwtPayload)
  (now : Z) (s : Session) :
  inSync s ->
  match fst (ensureValidSession decodeJwtPayload now s) with
  | Some t =>
      t <> EmptyString
      /\ storedToken s = Some t
      /\ isTokenExpired decodeJwtPayload now (Some t) = false
      /\ snd (ensureValidSession decodeJwtPayload now s) = s
      /\ authorization s = Some (append "Bearer " t)
  | None =>
      snd (ensureValidSession decodeJwtPayload now s)
      = mkSession None None true (assigned s ++ [loginRedirectPath])
  end.
Proof.
  intro Hsync. unfold ensureValidSession.
  destruct (isTokenExpired decodeJwtPayload now (storedToken s)) eqn:Hexp; cbn [fst snd].
  - reflexivity.
  - destruct (storedToken s) as [t|] eqn:Hst; [|discriminate Hexp].
    assert (JS.truthy t = true) as Ht.
    { cbn [isTokenExpired] in Hexp. destruct (JS.truthy t); [reflexivity | discriminate Hexp]. }
    repeat split; try assumption.
    + now apply truthy_true_iff.
    + unfold inSync in Hsync. now rewrite Hst, Ht in Hsync.
Qed.

Lemma ensureValidSession_outcome_witness :
  snd (ensureValidSession sampleDecode 1800000000000 (loadSession (Some "abc"%string)))
  = mkSession None None true ["/login"%string]
  /\ fst (ensureValidSession sampleDecode 1600000000000 (loadSession (Some "abc"%string)))
     = Some "abc"%string.
Proof.
  split.
  - exact (@ensureValidSession_outcome sampleDecode 1800000000000
             (loadSession (Some "abc"%string)) eq_refl).
  - pose proof (@ensureValidSession_outcome sampleDecode 1600000000000
                  (loadSession (Some "abc"%string)) eq_refl) as H.
    cbn in H. reflexivity.
Defined.

Lemma toLowerCase_length (s : string) : String.length (toLowerCase s) = String.length s.
Proof.
  induction s as [|c s IH]; [reflexivity|]. cbn. now rewrite IH.
Qed.

Lemma toLowerCase_append (s t : string) :
  toLowerCase (append s t) = append (toLowerCase s) (toLowerCase t).
Proof.
  induction s as [|c s IH]; [reflexivity|]. cbn. now rewrite IH.
Qed.

Lemma startsWith_append (s t : string) : startsWith s (append s t) = true.
Proof.
  induction s as [|c s IH]; [reflexivity|]. cbn. now rewrite Ascii.eqb_refl, IH.
Qed.

Lemma slice_append (s t : string) : slice (String.length s) (append s t) = t.
Proof.
  induction s as [|c s IH]; [now destruct t|]. cbn. exact IH.
Qed.

(** A header made of any spelling of ["Bearer "] and a token gives the
    token back. *)
Lemma extractHeaderToken_bearer (prefix t : string) :
  toLowerCase prefix = "bearer "%string ->
  extractHeaderToken (Some (append prefix t)) = Some t.
Proof.
  intro Hp. unfold extractHeaderToken.
  assert (String.length prefix = 7) as Hlen.
  { rewrite <- toLowerCase_length, Hp. reflexivity. }
  assert (JS.truthy (append prefix t) = true) as ->.
  { destruct prefix; [discriminate Hlen | reflexivity]. }
  rewrite toLowerCase_append, Hp, startsWith_append. cbn [andb].
  rewrite <- Hlen. now rewrite slice_append.
Qed.

(** X14. What a login leaves behind. When [authApi.login] returns a token,
    the token is not empty, it is the stored token and the header is
    ["Bearer "] followed by it; nothing is redirected. When the response
    holds no token it throws the missing-token error and the session is
    untouched. *)
Theorem login_outcome (r : LoginResponse) (s : Session) :
  (forall t s',
      login (inr r) s = (Normal t, s') ->
      t <> EmptyString
      /\ storedToken s' = Some t
      /\ authorization s' = Some (append "Bearer " t)
      /\ hasRedirectedForAuth s' = hasRedirectedForAuth s
      /\ assigned s' = assigned s)
  /\ (forall e s',
         login (inr r) s = (Abrupt e, s') ->
         e = JsError TOKEN_MISSING /\ s' = s).
Proof.
  unfold login. destruct (loginToken r) as [token|] eqn:Htok; split.
  - intros t s' H. injection H as <- <-.
    assert (JS.truthy token = true) as Ht.
    { unfold loginToken in Htok. destruct (orElse _ _) as [t0|]; [|discriminate].
      destruct (JS.truthy t0) eqn:E; [|discriminate]. now injection Htok as <-. }
    unfold setAuthToken. rewrite Ht. repeat split. now apply truthy_true_iff.
  - intros e s' H. discriminate H.
  - intros t s' H. discriminate H.
  - intros e s' H. now injection H as <- <-.
Qed.

Lemma login_outcome_witness :
  storedToken (snd (login (inr (mkLoginResponse None None None (Some "tok"%string) None None))
                          (loadSession None)))
  = Some "tok"%string
  /\ snd (login (inr (mkLoginResponse None None None None None None)) (loadSession None))
     = loadSession None.
Proof.
  split.
  - refine (proj1 (proj2 (proj1 (@login_outcome
        (mkLoginResponse None None None (Some "tok"%string) None None) (loadSession None))
        _ _ eq_refl))).
  - refine (proj2 (proj2 (@login_outcome
        (mkLoginResponse None None None None None None) (loadSession None))
        _ _ eq_refl)).
Defined.

(** X15. The authorization header makes a round trip through a login: when
    the body holds no token and the response header is ["Bearer "], in any
    mix of upper and lower case, followed by a non-empty token, the login
    returns that token and the client's header becomes ["Bearer "]
    followed by it. *)
Theorem login_header_round_trip (prefix t : string) (r : LoginResponse) (s : Session) :
  toLowerCase prefix = "bearer "%string ->
  t <> EmptyString ->
  d_accessToken r = None -> d_token r = None ->
  d_Authorization r = None -> d_authorization r = None ->
  h_authorization r = Some (append prefix t)
  \/ (h_authorization r = None /\ h_Authorization r = Some (append prefix t)) ->
  fst (login (inr r) s) = Normal t
  /\ authorization (snd (login (inr r) s)) = Some (append "Bearer " t).
Proof.
  intros Hp Ht Ha Hb Hc Hd Hh.
  assert (JS.truthy (append prefix t) = true) as Htruthy.
  { destruct prefix; [discriminate Hp | reflexivity]. }
  assert (orElse (h_authorization r) (h_Authorization r) = Some (append prefix t)) as Hsel.
  { destruct Hh as [-> | [-> ->]]; cbn [orElse]; now rewrite ?Htruthy. }
  assert (loginToken r = Some t) as Htok.
  { unfold loginToken. rewrite Hsel, Ha, Hb, Hc, Hd. cbn [coalesce orElse].
    rewrite (@extractHeaderToken_bearer prefix t Hp).
    apply truthy_true_iff in Ht. now rewrite Ht. }
  unfold login. rewrite Htok. cbn [fst snd]. split; [reflexivity|].
  unfold setAuthToken. apply truthy_true_iff in Ht. now rewrite Ht.
Qed.

Lemma login_header_round_trip_witness :
  fst (login (inr (mkLoginResponse None (Some "BEARER abc.def"%string) None None None None))
             (loadSession None))
  = Normal "abc.def"%string
  /\ authorization
       (snd (login (inr (mkLoginResponse None (Some "BEARER abc.def"%string)
                                         None None None None))
                   (loadSession None)))
     = Some "Bearer abc.def"%string.
Proof.
  apply (@login_header_round_trip "BEARER " "abc.def"); try reflexivity.
  - discriminate.
  - right. split; reflexivity.
Defined.

(** X16. Which body field is used. With no [accessToken] field the
    non-empty [token] field is the token of the login. With an
    [accessToken] that is the empty string the other three body fields are
    never looked at, whatever they hold: the token is the one of the
    header, or the login throws. *)
Theorem login_body_precedence (r : LoginResponse) :
  (forall t, d_accessToken r = None -> d_token r = Some t -> t <> EmptyString ->
             loginToken r = Some t)
  /\ (d_accessToken r = Some EmptyString ->
      loginToken r
      = loginToken (mkLoginResponse (h_authorization r) (h_Authorization r)
                                    None None None None)).
Proof.
  split.
  - intros t Ha Hb Ht. unfold loginToken. rewrite Ha, Hb. cbn [coalesce orElse].
    apply truthy_true_iff in Ht. rewrite Ht. now rewrite Ht.
  - intro Ha. unfold loginToken. now rewrite Ha.
Qed.

Lemma login_body_precedence_witness :
  loginToken (mkLoginResponse None None (Some EmptyString) (Some "tok"%string) None None)
  = None
  /\ loginToken (mkLoginResponse None None None (Some "tok"%string) None None)
     = Some "tok"%string.
Proof.
  split.
  - exact (proj2 (login_body_precedence
                    (mkLoginResponse None None (Some EmptyString) (Some "tok"%string)
                                     None None))
                 eq_refl).
  - refine (proj1 (login_body_precedence
                     (mkLoginResponse None None None (Some "tok"%string) None None))
                  _ eq_refl eq_refl _).
    discriminate.
Defined.

(** X17. A logout always ends logged out, whether the request was made,
    answered or rejected: no header, no stored token, the redirect flag
    off; [/login] is assigned at most once, and only when the request was
    rejected with status 401 or 403. *)
Theorem logout_clears_session (failure : option Thrown) (s : Session) :
  authorization (snd (logout failure s)) = None
  /\ storedToken (snd (logout failure s)) = None
  /\ hasRedirectedForAuth (snd (logout failure s)) = false
  /\ (assigned (snd (logout failure s)) = assigned s
      \/ (assigned (snd (logout failure s)) = assigned s ++ [loginRedirectPath]
          /\ exists error,
               failure = Some error
               /\ (statusOf error = Some 401%Z \/ statusOf error = Some 403%Z))).
Proof.
  unfold logout.
  destruct (storedToken s) as [t|]; [|repeat split; now left].
  destruct (JS.truthy t); [|repeat split; now left].
  destruct failure as [error|]; [|repeat split; now left].
  unfold onResponseError.
  destruct (statusIs (statusOf error) 401) eqn:H1;
    [|destruct (statusIs (statusOf error) 403) eqn:H3]; cbn [orb snd].
  - repeat split. right. split; [reflexivity|]. exists error. split; [reflexivity|].
    left. unfold statusIs in H1. destruct (statusOf error) as [z|]; [|discriminate].
    apply Z.eqb_eq in H1. now subst.
  - repeat split. right. split; [reflexivity|]. exists error. split; [reflexivity|].
    right. unfold statusIs in H3. destruct (statusOf error) as [z|]; [|discriminate].
    apply Z.eqb_eq in H3. now subst.
  - repeat split. now left.
Qed.
